(** * GOnetstat: a shallow embedding of [gonetstat.go]

    The Go package reads the kernel socket tables under [/proc/net] and
    decodes every line into a [Process] record.  The functions below follow
    the Go source one by one and keep its names.  Go strings are byte
    strings and are modelled as [string] (one [ascii] per byte); [int] and
    [int64] values are modelled as [Z]; slices are lists.

    A Go function can end in three ways: it returns, it panics (an index or
    a slice bound out of range), or it terminates the process through
    [os.Exit].  It may also print and call into the operating system on the
    way.  Both are recorded by the monad [M]. *)

From Stdlib Require Import ZArith DecimalString Ascii String Lia.
From stdpp Require Import gmap strings list.

Open Scope string_scope.
Open Scope list_scope.
Open Scope Z_scope.

(** ** Outcomes and effects *)

(** Go [error] values that the package can meet. *)
Inductive error : Type :=
| ErrSyntax (fn num : string)  (* strconv.NumError with strconv.ErrSyntax *)
| ErrRange (fn num : string)   (* strconv.NumError with strconv.ErrRange *)
| ErrBadPattern                (* filepath.ErrBadPattern *)
| ErrOS (msg : string).        (* an error of the operating system *)

(** What a call does that the outside can observe, in order. *)
Inductive event : Type :=
| Printf (text : string)       (* fmt.Printf: the formatted text *)
| Println (e : error)          (* fmt.Println(err) *)
| ReadFile (path : string)     (* ioutil.ReadFile *)
| Glob (pattern : string)      (* filepath.Glob *)
| Readlink (path : string).    (* os.Readlink *)

Inductive outcome (A : Type) : Type :=
| Returned (a : A)
| Panicked
| Exited (status : Z).

Arguments Returned {A} a.
Arguments Panicked {A}.
Arguments Exited {A} status.

Definition M (A : Type) : Type := (list event * outcome A)%type.

Definition ret {A : Type} (a : A) : M A := ([], Returned a).

Definition bind {A B : Type} (m : M A) (k : A -> M B) : M B :=
  match m with
  | (t, Returned a) => let (t', o) := k a in (t ++ t', o)
  | (t, Panicked) => (t, Panicked)
  | (t, Exited n) => (t, Exited n)
  end.

Notation "'let!' x ':=' m 'in' k" := (bind m (fun x => k))
  (at level 10, x name, m at level 100, k at level 200).

Definition emit (e : event) : M unit := ([e], Returned tt).
Definition panic {A : Type} : M A := ([], Panicked).
Definition os_Exit {A : Type} (status : Z) : M A := ([], Exited status).

Definition trace {A : Type} (m : M A) : list event := fst m.
Definition result {A : Type} (m : M A) : outcome A := snd m.

(** A call ended without returning: it panicked or left the process. *)
Definition abnormal {A : Type} (o : outcome A) : bool :=
  match o with
  | Returned _ => false
  | Panicked => true
  | Exited _ => true
  end.

(** The operating system as the package sees it: each call either yields
    its value or an error. *)
Record OS : Type := {
  ioutil_ReadFile : string -> string + error;
  filepath_Glob : string -> list string + error;
  os_Readlink : string -> string + error
}.

(** ** Go's built-in indexing and slicing *)

(** [a[i]] on a slice: out of range panics. *)
Definition index {A : Type} (a : list A) (i : nat) : M A :=
  match a !! i with
  | Some x => ret x
  | None => panic
  end.

(** [s[lo:hi]] on a string with constant bounds: panics unless
    [lo <= hi <= len(s)]. *)
Definition slice_string (s : string) (lo hi : nat) : M string :=
  if ((lo <=? hi) && (hi <=? String.length s))%nat
  then ret (substring lo (hi - lo) s)
  else panic.

(** [a[lo:hi]] on a slice whose capacity is its length (as [strings.Split]
    returns it), with [int] bounds: panics unless [0 <= lo <= hi <= len(a)]. *)
Definition slice_list {A : Type} (a : list A) (lo hi : Z) : M (list A) :=
  if (0 <=? lo) && (lo <=? hi) && (hi <=? Z.of_nat (length a))
  then ret (take (Z.to_nat (hi - lo)) (drop (Z.to_nat lo) a))
  else panic.

(** ** The Go library functions the package calls *)

Definition byte_val (c : ascii) : Z := Z.of_N (N_of_ascii c).

Definition LF : ascii := ascii_of_nat 10.

(** [strings.Split(s, sep)] for a separator of one byte, which is what every
    call of the package passes (a space, a colon, a slash, a line feed). *)
Fixpoint Split (s : string) (sep : ascii) : list string :=
  match s with
  | EmptyString => [EmptyString]
  | String c s' =>
      if Ascii.eqb c sep then EmptyString :: Split s' sep
      else match Split s' sep with
           | h :: t => String c h :: t
           | [] => [String c EmptyString]
           end
  end.

(** [strings.TrimSpace]: leading and trailing white space is removed, where
    white space is [unicode.IsSpace] on the UTF-8 decoding of the bytes:
    the six ASCII characters, U+0085 and U+00A0 (two bytes), and U+1680,
    U+2000..U+200A, U+2028, U+2029, U+202F, U+205F, U+3000 (three bytes). *)
Definition space1 (a : Z) : bool :=
  (a =? 9) || (a =? 10) || (a =? 11) || (a =? 12) || (a =? 13) || (a =? 32).

Definition space2 (a b : Z) : bool :=
  (a =? 194) && ((b =? 133) || (b =? 160)).

Definition space3 (a b c : Z) : bool :=
  ((a =? 225) && (b =? 154) && (c =? 128))
  || ((a =? 226) && (b =? 128)
      && (((128 <=? c) && (c <=? 138)) || (c =? 168) || (c =? 169) || (c =? 175)))
  || ((a =? 226) && (b =? 129) && (c =? 159))
  || ((a =? 227) && (b =? 128) && (c =? 128)).

Fixpoint TrimLeft (s : list ascii) : list ascii :=
  match s with
  | [] => []
  | a :: s1 =>
      if space1 (byte_val a) then TrimLeft s1
      else match s1 with
           | [] => s
           | b :: s2 =>
               if space2 (byte_val a) (byte_val b) then TrimLeft s2
               else match s2 with
                    | [] => s
                    | c :: s3 =>
                        if space3 (byte_val a) (byte_val b) (byte_val c)
                        then TrimLeft s3 else s
                    end
           end
  end.

(** The same from the end, on the reversed bytes. *)
Fixpoint TrimLeft_rev (s : list ascii) : list ascii :=
  match s with
  | [] => []
  | a :: s1 =>
      if space1 (byte_val a) then TrimLeft_rev s1
      else match s1 with
           | [] => s
           | b :: s2 =>
               if space2 (byte_val b) (byte_val a) then TrimLeft_rev s2
               else match s2 with
                    | [] => s
                    | c :: s3 =>
                        if space3 (byte_val c) (byte_val b) (byte_val a)
                        then TrimLeft_rev s3 else s
                    end
           end
  end.

Definition TrimRight (s : list ascii) : list ascii :=
  rev (TrimLeft_rev (rev s)).

Definition TrimSpace (s : string) : string :=
  string_of_list_ascii (TrimRight (TrimLeft (list_ascii_of_string s))).

(** [strconv.ParseInt(s, base, bitSize)].  A digit is read as Go reads it:
    ['0'..'9'], or a letter after its case bit is set. *)
Definition digit_val (c : ascii) : option Z :=
  let n := byte_val c in
  if (48 <=? n) && (n <=? 57) then Some (n - 48)
  else
    let l := Z.lor n 32 in
    if (97 <=? l) && (l <=? 122) then Some (l - 97 + 10) else None.

Inductive strconv_err : Type := Syntax | Range.

(** The digit loop of [strconv.ParseUint]: [n] is the value read so far; a
    value above [maxVal] is a range error as soon as it is reached. *)
Fixpoint ParseUint_loop (base maxVal : Z) (s : string) (n : Z)
  : Z + strconv_err :=
  match s with
  | EmptyString => inl n
  | String c s' =>
      match digit_val c with
      | None => inr Syntax
      | Some d =>
          if base <=? d then inr Syntax
          else
            let n1 := n * base + d in
            if maxVal <? n1 then inr Range
            else ParseUint_loop base maxVal s' n1
      end
  end.

Definition ParseUint (s : string) (base bitSize : Z) : Z + strconv_err :=
  match s with
  | EmptyString => inr Syntax
  | _ => ParseUint_loop base (2 ^ bitSize - 1) s 0
  end.

Definition ParseInt (s : string) (base bitSize : Z) : Z + error :=
  match s with
  | EmptyString => inr (ErrSyntax "ParseInt" s)
  | String c rest =>
      let neg := Ascii.eqb c "-" in
      let body := if Ascii.eqb c "+" || Ascii.eqb c "-" then rest else s in
      match ParseUint body base bitSize with
      | inr Syntax => inr (ErrSyntax "ParseInt" s)
      | inr Range => inr (ErrRange "ParseInt" s)
      | inl un =>
          let cutoff := 2 ^ (bitSize - 1) in
          if negb neg && (cutoff <=? un) then inr (ErrRange "ParseInt" s)
          else if neg && (cutoff <? un) then inr (ErrRange "ParseInt" s)
          else inl (if neg then - un else un)
      end
  end.

(** [%v] of an [int64]: its decimal digits, with a sign when negative. *)
Definition FormatInt (z : Z) : string := NilZero.string_of_int (Z.to_int z).

(** ** The package *)

Definition PROC_TCP : string := "/proc/net/tcp".
Definition PROC_UDP : string := "/proc/net/udp".
Definition PROC_TCP6 : string := "/proc/net/tcp6".
Definition PROC_UDP6 : string := "/proc/net/udp6".

Definition SOCKET_STATE_ESTABLISHED : string := "01".
Definition SOCKET_STATE_SYN_SENT : string := "02".
Definition SOCKET_STATE_SYN_RECV : string := "03".
Definition SOCKET_STATE_FIN_WAIT1 : string := "04".
Definition SOCKET_STATE_FIN_WAIT2 : string := "05".
Definition SOCKET_STATE_TIME_WAIT : string := "06".
Definition SOCKET_STATE_CLOSE : string := "07".
Definition SOCKET_STATE_CLOSE_WAIT : string := "08".
Definition SOCKET_STATE_LAST_ACK : string := "09".
Definition SOCKET_STATE_LISTEN : string := "0A".
Definition SOCKET_STATE_CLOSING : string := "0B".

Definition STATE : gmap string string :=
  list_to_map
    [ (SOCKET_STATE_ESTABLISHED, "ESTABLISHED");
      (SOCKET_STATE_SYN_SENT, "SYN_SENT");
      (SOCKET_STATE_SYN_RECV, "SYN_RECV");
      (SOCKET_STATE_FIN_WAIT1, "FIN_WAIT1");
      (SOCKET_STATE_FIN_WAIT2, "FIN_WAIT2");
      (SOCKET_STATE_TIME_WAIT, "TIME_WAIT");
      (SOCKET_STATE_CLOSE, "CLOSE");
      (SOCKET_STATE_CLOSE_WAIT, "CLOSE_WAIT");
      (SOCKET_STATE_LAST_ACK, "LAST_ACK");
      (SOCKET_STATE_LISTEN, "LISTEN");
      (SOCKET_STATE_CLOSING, "CLOSING") ].

(** [STATE[code]]: a Go map read yields the zero value, the empty string,
    for a key that is absent. *)
Definition STATE_get (code : string) : string := default "" (STATE !! code).

Record Process : Type := {
  User : string;
  Name : string;
  Pid : string;
  Exe : string;
  State : string;
  IP : string;
  Port : Z;
  ForeignIP : string;
  ForeignPort : Z
}.

Definition hexToDec (h : string) : M Z :=
  match ParseInt h 16 32 with
  | inr err => let! _ := emit (Println err) in os_Exit 1
  | inl d => ret d
  end.

Definition convertIP (ip : string) : M string :=
  if 8 <? Z.of_nat (String.length ip) then
    let! i0 := slice_string ip 30 32 in
    let! i1 := slice_string ip 28 30 in
    let! i2 := slice_string ip 26 28 in
    let! i3 := slice_string ip 24 26 in
    let! i4 := slice_string ip 22 24 in
    let! i5 := slice_string ip 20 22 in
    let! i6 := slice_string ip 18 20 in
    let! i7 := slice_string ip 16 18 in
    let! i8 := slice_string ip 14 16 in
    let! i9 := slice_string ip 12 14 in
    let! i10 := slice_string ip 10 12 in
    let! i11 := slice_string ip 8 10 in
    let! i12 := slice_string ip 6 8 in
    let! i13 := slice_string ip 4 6 in
    let! i14 := slice_string ip 2 4 in
    let! i15 := slice_string ip 0 2 in
    ret (i14 +:+ i15 +:+ ":" +:+ i13 +:+ i12 +:+ ":" +:+
         i10 +:+ i11 +:+ ":" +:+ i8 +:+ i9 +:+ ":" +:+
         i6 +:+ i7 +:+ ":" +:+ i4 +:+ i5 +:+ ":" +:+
         i2 +:+ i3 +:+ ":" +:+ i0 +:+ i1)
  else
    let! s0 := slice_string ip 6 8 in
    let! i0 := hexToDec s0 in
    let! s1 := slice_string ip 4 6 in
    let! i1 := hexToDec s1 in
    let! s2 := slice_string ip 2 4 in
    let! i2 := hexToDec s2 in
    let! s3 := slice_string ip 0 2 in
    let! i3 := hexToDec s3 in
    ret (FormatInt i0 +:+ "." +:+ FormatInt i1 +:+ "." +:+
         FormatInt i2 +:+ "." +:+ FormatInt i3).

Fixpoint removeEmpty (array : list string) : list string :=
  match array with
  | [] => []
  | i :: rest =>
      if String.eqb i "" then removeEmpty rest else i :: removeEmpty rest
  end.

(** The tokens of a table line, as [netstat] computes them. *)
Definition lineArray_of (line : string) : list string :=
  removeEmpty (Split (TrimSpace line) " ").

(** The body of the loop of [netstat]: one line, one record. *)
Definition netstat_line (line : string) : M Process :=
  let lineArray := lineArray_of line in
  let! f1 := index lineArray 1 in
  let ipPort := Split f1 ":" in
  let! a0 := index ipPort 0 in
  let! ip := convertIP a0 in
  let! a1 := index ipPort 1 in
  let! port := hexToDec a1 in
  let! f2 := index lineArray 2 in
  let fipPort := Split f2 ":" in
  let! b0 := index fipPort 0 in
  let! fip := convertIP b0 in
  let! b1 := index fipPort 1 in
  let! fport := hexToDec b1 in
  let! state := index lineArray 3 in
  ret {| User := ""; Name := ""; Pid := ""; Exe := "";
         State := state; IP := ip; Port := port;
         ForeignIP := fip; ForeignPort := fport |}.

Fixpoint netstat_loop (data : list string) (Processes : list Process)
  : M (list Process) :=
  match data with
  | [] => ret Processes
  | line :: rest =>
      let! p := netstat_line line in
      netstat_loop rest (Processes ++ [p])
  end.

Section Netstat.

Variable os : OS.

Definition getData (t : string) : M (list string) :=
  let! procT :=
    (if String.eqb t "tcp" then ret PROC_TCP
     else if String.eqb t "udp" then ret PROC_UDP
     else if String.eqb t "tcp6" then ret PROC_TCP6
     else if String.eqb t "udp6" then ret PROC_UDP6
     else
       let! _ := emit (Printf (t +:+ " is a invalid type, tcp and udp only!"
                                 +:+ String LF "")) in
       os_Exit 1) in
  let! _ := emit (ReadFile procT) in
  match ioutil_ReadFile os procT with
  | inr err => let! _ := emit (Println err) in os_Exit 1
  | inl data =>
      let lines := Split data LF in
      slice_list lines 1 (Z.of_nat (length lines) - 1)
  end.

Definition netstat (t : string) : M (list Process) :=
  let! data := getData t in
  netstat_loop data [].

Definition Tcp : M (list Process) := netstat "tcp".
Definition Udp : M (list Process) := netstat "udp".
Definition Tcp6 : M (list Process) := netstat "tcp6".
Definition Udp6 : M (list Process) := netstat "udp6".

End Netstat.

(** A compiled regular expression, as far as [findPid] uses it. *)
Record Regexp : Type := { FindString : string -> string }.

Section InodeResolver.

Variable os : OS.

(** [regexp.MustCompile]: [None] when the pattern does not compile, in
    which case the call panics. *)
Variable regexp_MustCompile : string -> option Regexp.

Fixpoint findPid_loop (re : Regexp) (d : list string) (pid : string)
  : M string :=
  match d with
  | [] => ret pid
  | item :: rest =>
      let! _ := emit (Readlink item) in
      match os_Readlink os item with
      | inr _ => findPid_loop re rest pid
      | inl path =>
          let out := FindString re path in
          if negb (String.length out =? 0)%nat then
            let! pid' := index (Split item "/") 2 in
            findPid_loop re rest pid'
          else findPid_loop re rest pid
      end
  end.

Definition findPid (inode : string) : M string :=
  let pid := "-" in
  let! _ := emit (Glob "/proc/[0-9]*/fd/[0-9]*") in
  match filepath_Glob os "/proc/[0-9]*/fd/[0-9]*" with
  | inr err => let! _ := emit (Println err) in os_Exit 1
  | inl d =>
      match regexp_MustCompile inode with
      | None => panic
      | Some re => findPid_loop re d pid
      end
  end.

End InodeResolver.

(** [a[i]] on a slice with an [int] index: out of range panics. *)
Definition index_int {A : Type} (a : list A) (i : Z) : M A :=
  if (0 <=? i) && (i <? Z.of_nat (length a)) then index a (Z.to_nat i)
  else panic.

Section ProcessName.

(** [strings.Title] upper-cases the first letter of every word after the
    tables of Unicode; it is a parameter here. *)
Variable strings_Title : string -> string.

Definition getProcessName (exe : string) : M string :=
  let n := Split exe "/" in
  let! name := index_int n (Z.of_nat (length n) - 1) in
  ret (strings_Title name).

End ProcessName.

(** ** Vocabulary of the statements *)

(** The hexadecimal digits and their values, read off the alphabet. *)
Fixpoint position (c : ascii) (alphabet : string) (i : Z) : option Z :=
  match alphabet with
  | EmptyString => None
  | String a rest => if Ascii.eqb c a then Some i else position c rest (i + 1)
  end.

Definition hex_digit (c : ascii) : option Z :=
  match position c "0123456789abcdef" 0 with
  | Some d => Some d
  | None => position c "0123456789ABCDEF" 0
  end.

Fixpoint is_hex (s : string) : bool :=
  match s with
  | EmptyString => true
  | String c s' => bool_decide (is_Some (hex_digit c)) && is_hex s'
  end.

(** The number a string of hexadecimal digits denotes, most significant
    digit first. *)
Fixpoint hex_value (s : string) : Z :=
  match s with
  | EmptyString => 0
  | String c s' =>
      default 0 (hex_digit c) * 16 ^ Z.of_nat (String.length s') + hex_value s'
  end.

(** The [k]-th byte of a token of hexadecimal digits, as text and as a
    number. *)
Definition byte_text (token : string) (k : nat) : string :=
  substring (2 * k) 2 token.

Definition byte_at (token : string) (k : nat) : Z :=
  hex_value (byte_text token k).

(** A byte occurs in a string. *)
Fixpoint has_byte (c : ascii) (s : string) : bool :=
  match s with
  | EmptyString => false
  | String a s' => Ascii.eqb a c || has_byte c s'
  end.

(** The kernel resource a selector names. *)
Definition selector_path (t : string) : option string :=
  if decide (t = "tcp") then Some PROC_TCP
  else if decide (t = "udp") then Some PROC_UDP
  else if decide (t = "tcp6") then Some PROC_TCP6
  else if decide (t = "udp6") then Some PROC_UDP6
  else None.

(** A computation that prints nothing and makes no system call whenever it
    returns. *)
Definition silent {A : Type} (m : M A) : Prop :=
  forall t a, m = (t, Returned a) -> t = [].

(** The record [p] carries what the line holds: the state token, and the
    decoded halves of the local and of the remote address token. *)
Definition populated (line : string) (p : Process) : Prop :=
  exists f1 f2 a0 a1 b0 b1,
    lineArray_of line !! 1%nat = Some f1
    /\ Split f1 ":" !! 0%nat = Some a0 /\ Split f1 ":" !! 1%nat = Some a1
    /\ lineArray_of line !! 2%nat = Some f2
    /\ Split f2 ":" !! 0%nat = Some b0 /\ Split f2 ":" !! 1%nat = Some b1
    /\ convertIP a0 = ([], Returned (IP p))
    /\ hexToDec a1 = ([], Returned (Port p))
    /\ convertIP b0 = ([], Returned (ForeignIP p))
    /\ hexToDec b1 = ([], Returned (ForeignPort p))
    /\ lineArray_of line !! 3%nat = Some (State p).

(** The owner and process fields of a record are all empty. *)
Definition unowned (p : Process) : Prop :=
  User p = "" /\ Name p = "" /\ Pid p = "" /\ Exe p = "".

(** The lines between the header and the last element. *)
Definition body_lines (raw : string) : list string :=
  let lines := Split raw LF in
  take (length lines - 2) (drop 1 lines).

(** The selectors the package knows. *)
Definition selectors : list string := ["tcp"; "udp"; "tcp6"; "udp6"].

(** The IPv6 rendering in the words of the specification: the token is four
    consecutive little-endian words of four bytes; the bytes of each word
    are reversed, and the sixteen bytes are printed as eight groups of two
    bytes, with colons between them. *)
Definition spec_decodeAddress6 (token : string) : string :=
  let word w :=
    byte_text token (4 * w + 3) +:+ byte_text token (4 * w + 2) +:+ ":" +:+
    byte_text token (4 * w + 1) +:+ byte_text token (4 * w) in
  word 0%nat +:+ ":" +:+ word 1%nat +:+ ":" +:+ word 2%nat +:+ ":" +:+ word 3%nat.

(** The pattern of the descriptor links that [findPid] enumerates. *)
Definition fd_pattern : string := "/proc/[0-9]*/fd/[0-9]*".

(** [sub] occurs in [s] as a run of consecutive bytes. *)
Fixpoint contains (sub s : string) : bool :=
  String.prefix sub s
  || match s with
     | EmptyString => false
     | String _ s' => contains sub s'
     end.

(** The target of the link [item] can be read and contains [inode]. *)
Definition link_matches (os : OS) (inode item : string) : bool :=
  match os_Readlink os item with
  | inl target => contains inode target
  | inr _ => false
  end.

(** The process id in the path of a descriptor link: its third component
    when split at the slashes, the first being empty. *)
Definition pid_of_link (item : string) : string :=
  default "" (Split item "/" !! 2%nat).

(** The process id of the last, and of the first, matching link in the order
    of the enumeration; "-" when no link matches. *)
Definition last_match_pid (os : OS) (inode : string) (d : list string) : string :=
  match last (List.filter (link_matches os inode) d) with
  | Some item => pid_of_link item
  | None => "-"
  end.

Definition first_match_pid (os : OS) (inode : string) (d : list string) : string :=
  match head (List.filter (link_matches os inode) d) with
  | Some item => pid_of_link item
  | None => "-"
  end.

(** What Go's [regexp] does with a pattern that has no metacharacter, such
    as the decimal digits of an inode number: the pattern compiles, and its
    leftmost match in a text is the pattern itself when the text contains
    it, and the empty string when it does not. *)
Definition literal_regexp (pattern : string) : Regexp :=
  {| FindString := fun text => if contains pattern text then pattern else "" |}.

Definition literal_MustCompile (pattern : string) : option Regexp :=
  Some (literal_regexp pattern).

(** A non-empty string of hexadecimal digits. *)
Definition hex_digits (s : string) : bool :=
  negb (String.eqb s "") && is_hex s.

(** The integer a token denotes when it is hexadecimal digits after an
    optional sign; [None] for every other token. *)
Definition signed_hex_value (h : string) : option Z :=
  match h with
  | EmptyString => None
  | String c rest =>
      if Ascii.eqb c "+" then
        if hex_digits rest then Some (hex_value rest) else None
      else if Ascii.eqb c "-" then
        if hex_digits rest then Some (- hex_value rest) else None
      else if is_hex h then Some (hex_value h) else None
  end.

(** The range of a signed integer of 32 bits. *)
Definition int32 (z : Z) : bool := (- 2 ^ 31 <=? z) && (z <? 2 ^ 31).

(** A computation that never panics and prints at most once: either it
    returns, having printed nothing and made no system call, or it prints
    one error and the process exits with status 1. *)
Definition quiet {A : Type} (m : M A) : Prop :=
  (exists a, m = ([], Returned a))
  \/ exists e, m = ([Println e], Exited 1).

(** The same with a panic allowed, as long as nothing was printed before. *)
Definition discreet {A : Type} (m : M A) : Prop :=
  (exists a, m = ([], Returned a))
  \/ m = ([], Panicked)
  \/ exists e, m = ([Println e], Exited 1).

(** The upper-case hexadecimal digit of a number below 16, the two digits of
    a byte, and the token the kernel prints for the address [a.b.c.d] on a
    little-endian machine. *)
Definition hex_char (d : Z) : ascii :=
  match String.get (Z.to_nat d) "0123456789ABCDEF" with
  | Some c => c
  | None => "0"%char
  end.

Definition hex2 (x : Z) : string :=
  String (hex_char (x / 16)) (String (hex_char (x mod 16)) "").

Definition encode_ipv4 (a b c d : Z) : string :=
  hex2 d +:+ hex2 c +:+ hex2 b +:+ hex2 a.

Definition dotted_quad (a b c d : Z) : string :=
  FormatInt a +:+ "." +:+ FormatInt b +:+ "." +:+
  FormatInt c +:+ "." +:+ FormatInt d.

(** What [strings.Title] does on a word of ASCII letters and digits: its
    first letter is upper-cased. *)
Definition title_word (s : string) : string :=
  match s with
  | EmptyString => EmptyString
  | String c rest =>
      let n := N_of_ascii c in
      String (if (97 <=? n)%N && (n <=? 122)%N then ascii_of_N (n - 32) else c)
             rest
  end.

(** The address and port tokens of the kernel tables: 8 hexadecimal digits
    (IPv4) or 32 (IPv6), and 4 hexadecimal digits. *)
Definition address_token (a : string) : bool :=
  ((String.length a =? 8) || (String.length a =? 32))%nat && is_hex a.

Definition port_token (p : string) : bool :=
  (String.length p =? 4)%nat && is_hex p.

(** A line of a kernel table, of either family, with state token [st]. *)
Definition socket_line (line st : string) : Prop :=
  exists f0 a pa b pb more,
    lineArray_of line
    = f0 :: (a +:+ ":" +:+ pa) :: (b +:+ ":" +:+ pb) :: st :: more
    /\ address_token a = true /\ port_token pa = true
    /\ address_token b = true /\ port_token pb = true.

(** A token of visible ASCII characters (codes 33 to 126), a run of
    spaces, and a sequence of tokens each after one space or more. *)
Fixpoint all_visible (s : string) : bool :=
  match s with
  | EmptyString => true
  | String c s' => (33 <=? byte_val c) && (byte_val c <=? 126) && all_visible s'
  end.

Definition visible_token (tok : string) : bool :=
  negb (String.eqb tok "") && all_visible tok.

Fixpoint spaces (n : nat) : string :=
  match n with
  | O => EmptyString
  | S n' => String " " (spaces n')
  end.

Fixpoint spaced (toks : list (nat * string)) : string :=
  match toks with
  | [] => EmptyString
  | (n, tok) :: rest => spaces (S n) +:+ tok +:+ spaced rest
  end.

(** ** Sample inputs *)

Definition sample_header : string :=
  "  sl  local_address rem_address   st tx_queue rx_queue tr tm->when retrnsmt   uid  timeout inode".

(** A line of [/proc/net/tcp] for 127.0.0.1:80 with the given state code. *)
Definition sample_line (st : string) : string :=
  "   0: 0100007F:0050 00000000:0000 " +:+ st +:+
  " 00000000:00000000 00:00000000 00000000     0        0 12345 1 0000000000000000 100 0 0 10 0".

(** The content of a table: every line is followed by a line feed. *)
Definition table (lines : list string) : string :=
  foldr (fun line rest => line +:+ String LF rest) "" lines.

(** A system in which every table reads as [raw] and no process is seen. *)
Definition table_os (raw : string) : OS :=
  {| ioutil_ReadFile := fun _ => inl raw;
     filepath_Glob := fun _ => inl [];
     os_Readlink := fun _ => inr (ErrOS "no such file or directory") |}.

(** A system in which no read succeeds. *)
Definition broken_os : OS :=
  {| ioutil_ReadFile := fun _ => inr (ErrOS "permission denied");
     filepath_Glob := fun _ => inl [];
     os_Readlink := fun _ => inr (ErrOS "permission denied") |}.

(** Two processes that hold the socket of inode 1234, among other links. *)
Definition sample_links : list string :=
  ["/proc/10/fd/3"; "/proc/10/fd/4"; "/proc/20/fd/5"; "/proc/30/fd/0"].

Definition links_os : OS :=
  {| ioutil_ReadFile := fun _ => inr (ErrOS "no such file or directory");
     filepath_Glob := fun _ => inl sample_links;
     os_Readlink := fun item =>
       if String.eqb item "/proc/10/fd/3" then inl "socket:[1234]"
       else if String.eqb item "/proc/10/fd/4" then inl "/dev/null"
       else if String.eqb item "/proc/20/fd/5" then inl "socket:[1234]"
       else inr (ErrOS "permission denied") |}.

(** A system in which only process 10 holds the socket of inode 1234. *)
Definition owner_os : OS :=
  {| ioutil_ReadFile := fun _ => inr (ErrOS "no such file or directory");
     filepath_Glob := fun _ => inl sample_links;
     os_Readlink := fun item =>
       if String.prefix "/proc/10/" item then inl "socket:[1234]"
       else inl "/dev/null" |}.

(** The loopback address [::1] as the kernel prints it, and a token whose
    sixteen bytes are all different. *)
Definition loopback6 : string := "00000000000000000000000001000000".
Definition counting6 : string := "000102030405060708090A0B0C0D0E0F".

(** ** First checks on concrete inputs *)

Example hexToDec_0050 : hexToDec "0050" = ([], Returned 80).
Proof. reflexivity. Qed.

Example hexToDec_signed : hexToDec "-1F" = ([], Returned (-31)).
Proof. reflexivity. Qed.

Example hexToDec_out_of_range :
  hexToDec "80000000" = ([Println (ErrRange "ParseInt" "80000000")], Exited 1).
Proof. reflexivity. Qed.

Example hexToDec_not_hex :
  hexToDec "0x50" = ([Println (ErrSyntax "ParseInt" "0x50")], Exited 1).
Proof. reflexivity. Qed.

Example convertIP_loopback : convertIP "0100007F" = ([], Returned "127.0.0.1").
Proof. reflexivity. Qed.

Example Split_lines :
  Split (table ["header"; "one"; "two"]) LF = ["header"; "one"; "two"; ""].
Proof. reflexivity. Qed.

Example Split_empty : Split "" LF = [""].
Proof. reflexivity. Qed.

Example TrimSpace_ascii :
  TrimSpace (String (ascii_of_nat 9) "  a  b " +:+ String (ascii_of_nat 13) "")
  = "a  b".
Proof. reflexivity. Qed.

Example TrimSpace_no_break_space :
  TrimSpace (String (ascii_of_nat 194) (String (ascii_of_nat 160) "x")) = "x".
Proof. reflexivity. Qed.

Example lineArray_of_sample :
  take 4 (lineArray_of (sample_line "0A"))
  = ["0:"; "0100007F:0050"; "00000000:0000"; "0A"].
Proof. reflexivity. Qed.

Example STATE_get_listen : STATE_get SOCKET_STATE_LISTEN = "LISTEN".
Proof. reflexivity. Qed.

Example STATE_get_absent : STATE_get "FF" = "".
Proof. reflexivity. Qed.

(** ** The monad *)

Lemma bind_ret_l {A B : Type} (a : A) (k : A -> M B) : bind (ret a) k = k a.
Proof. unfold bind, ret. destruct (k a) as [t o]. reflexivity. Qed.

Lemma bind_returned {A B : Type} (m : M A) (k : A -> M B) t a t' o :
  m = (t, Returned a) -> k a = (t', o) -> bind m k = (t ++ t', o).
Proof. intros -> Hk. unfold bind. rewrite Hk. reflexivity. Qed.

Lemma bind_inv {A B : Type} (m : M A) (k : A -> M B) t b :
  bind m k = (t, Returned b) ->
  exists t1 a t2, m = (t1, Returned a) /\ k a = (t2, Returned b) /\ t = t1 ++ t2.
Proof.
  destruct m as [t1 [a| |n]]; unfold bind; try discriminate.
  destruct (k a) as [t2 o] eqn:Hk. intros [= <- ->].
  exists t1, a, t2. auto.
Qed.

Lemma bind_abnormal_l {A B : Type} (m : M A) (k : A -> M B) :
  abnormal (result m) = true -> abnormal (result (bind m k)) = true.
Proof. destruct m as [t [a| |n]]; simpl; auto; discriminate. Qed.

Lemma bind_abnormal_r {A B : Type} (m : M A) (k : A -> M B) t a :
  m = (t, Returned a) -> abnormal (result (k a)) = true ->
  abnormal (result (bind m k)) = true.
Proof.
  intros -> H. unfold bind. destruct (k a) as [t' o]. exact H.
Qed.

Lemma index_inv {A : Type} (a : list A) i t x :
  index a i = (t, Returned x) -> a !! i = Some x /\ t = [].
Proof.
  unfold index. destruct (a !! i); unfold ret, panic; intros [= <- <-]; auto.
Qed.

Lemma index_Some {A : Type} (a : list A) i x :
  a !! i = Some x -> index a i = ret x.
Proof. unfold index. intros ->. reflexivity. Qed.

Lemma slice_string_ok (s : string) (lo hi : nat) :
  (lo <= hi)%nat -> (hi <= String.length s)%nat ->
  slice_string s lo hi = ret (substring lo (hi - lo) s).
Proof.
  intros H1 H2. unfold slice_string.
  destruct (Nat.leb_spec lo hi); [|lia].
  destruct (Nat.leb_spec hi (String.length s)); [|lia]. reflexivity.
Qed.

Lemma slice_string_panic (s : string) (lo hi : nat) :
  (String.length s < hi)%nat -> slice_string s lo hi = panic.
Proof.
  intros H. unfold slice_string.
  destruct (Nat.leb_spec hi (String.length s)); [lia|].
  rewrite andb_false_r. reflexivity.
Qed.

(** ** Hexadecimal tokens *)

Lemma hex_digit_digit_val (c : ascii) (d : Z) :
  hex_digit c = Some d -> digit_val c = Some d /\ 0 <= d < 16.
Proof.
  intros H.
  destruct c as [[] [] [] [] [] [] [] []]; vm_compute in H;
    try discriminate H; injection H as <-; (split; [reflexivity | lia]).
Qed.

Lemma hex_value_bounds (s : string) :
  is_hex s = true -> 0 <= hex_value s < 16 ^ Z.of_nat (String.length s).
Proof.
  induction s as [|c s IH]; simpl hex_value; simpl is_hex; intros H.
  - simpl. lia.
  - apply andb_prop in H as [Hc Hs]. apply bool_decide_eq_true_1 in Hc as [d Hd].
    specialize (IH Hs). rewrite Hd. simpl default.
    apply hex_digit_digit_val in Hd as [_ Hd].
    change (String.length (String c s)) with (S (String.length s)).
    rewrite Nat2Z.inj_succ, Z.pow_succ_r by lia. nia.
Qed.

Lemma ParseUint_loop_hex (maxVal : Z) (s : string) (n : Z) :
  is_hex s = true -> 0 <= n ->
  n * 16 ^ Z.of_nat (String.length s) + hex_value s <= maxVal ->
  ParseUint_loop 16 maxVal s n
  = inl (n * 16 ^ Z.of_nat (String.length s) + hex_value s).
Proof.
  revert n. induction s as [|c s IH]; intros n H Hn Hmax.
  - simpl. f_equal. lia.
  - simpl is_hex in H. apply andb_prop in H as [Hc Hs].
    apply bool_decide_eq_true_1 in Hc as [d Hd].
    pose proof (hex_value_bounds s Hs) as Hb.
    change (String.length (String c s)) with (S (String.length s)) in *.
    rewrite Nat2Z.inj_succ, Z.pow_succ_r in * by lia.
    simpl hex_value in *. rewrite Hd in *. simpl default in *.
    apply hex_digit_digit_val in Hd as [Hdv Hd].
    simpl ParseUint_loop. rewrite Hdv.
    destruct (Z.leb_spec 16 d); [lia|].
    destruct (Z.ltb_spec maxVal (n * 16 + d)); [nia|].
    rewrite IH by (auto; nia). f_equal. ring.
Qed.

Lemma is_hex_no_sign (c : ascii) (s : string) :
  is_hex (String c s) = true ->
  Ascii.eqb c "+" || Ascii.eqb c "-" = false /\ Ascii.eqb c "-" = false.
Proof.
  simpl. intros H. apply andb_prop in H as [Hc _].
  apply bool_decide_eq_true_1 in Hc as [d Hd]. revert Hd.
  destruct c as [[] [] [] [] [] [] [] []]; vm_compute; intros H;
    try discriminate H; auto.
Qed.

(** A non-empty token of hexadecimal digits below [2^31] is parsed to the
    number it denotes, and nothing is printed. *)
Lemma hexToDec_hex (h : string) :
  is_hex h = true -> h <> "" -> hex_value h < 2 ^ 31 ->
  hexToDec h = ([], Returned (hex_value h)).
Proof.
  intros Hh Hne Hlt. destruct h as [|c s]; [congruence|].
  pose proof (is_hex_no_sign c s Hh) as [Hsign Hneg].
  pose proof (hex_value_bounds _ Hh) as Hb.
  unfold hexToDec, ParseInt. rewrite Hsign, Hneg.
  unfold ParseUint.
  rewrite ParseUint_loop_hex by (auto; try lia; change (2 ^ 32 - 1) with 4294967295;
                                 change (2 ^ 31) with 2147483648 in Hlt; lia).
  rewrite Z.mul_0_l, Z.add_0_l.
  change (2 ^ (32 - 1)) with 2147483648. change (2 ^ 31) with 2147483648 in Hlt.
  simpl negb. rewrite andb_true_l, andb_false_l.
  destruct (Z.leb_spec 2147483648 (hex_value (String c s))); [lia|].
  reflexivity.
Qed.

(** ** Strings *)

Lemma length_substring (s : string) (i n : nat) :
  (i + n <= String.length s)%nat -> String.length (substring i n s) = n.
Proof.
  revert i n. induction s as [|c s IH]; intros [|i] [|n]; simpl; intros H;
    try reflexivity; try lia.
  - f_equal. apply (IH 0%nat). simpl. lia.
  - apply IH. lia.
  - apply IH. lia.
Qed.

Lemma is_hex_substring (s : string) (i n : nat) :
  is_hex s = true -> is_hex (substring i n s) = true.
Proof.
  revert i n. induction s as [|c s IH]; intros [|i] [|n] H; simpl; auto.
  - simpl in H. apply andb_prop in H as [Hc Hs]. rewrite Hc. simpl. auto.
  - simpl in H. apply andb_prop in H as [Hc Hs]. auto.
  - simpl in H. apply andb_prop in H as [Hc Hs]. auto.
Qed.

Lemma substring_prefix (s : string) (i n m : nat) :
  (i + n <= m)%nat -> substring i n (substring 0 m s) = substring i n s.
Proof.
  revert i n m. induction s as [|c s IH]; intros i n m H.
  - destruct m; reflexivity.
  - destruct m as [|m].
    + assert (i = 0%nat) as -> by lia. assert (n = 0%nat) as -> by lia.
      reflexivity.
    + simpl substring at 2. destruct i as [|i].
      * destruct n as [|n]; [reflexivity|]. simpl. f_equal. apply IH. lia.
      * simpl. apply IH. lia.
Qed.

Lemma length_empty_inv (s : string) : String.length s = 0%nat -> s = "".
Proof. destruct s; [reflexivity | discriminate]. Qed.

Lemma Split_no_sep (s : string) (sep : ascii) :
  has_byte sep s = false -> Split s sep = [s].
Proof.
  induction s as [|c s IH]; simpl; [reflexivity|]. intros H.
  apply orb_false_elim in H as [Hc Hs]. rewrite Hc, (IH Hs). reflexivity.
Qed.

Lemma Split_app_sep (a b : string) (sep : ascii) :
  has_byte sep a = false -> Split (a +:+ String sep b) sep = a :: Split b sep.
Proof.
  induction a as [|c a IH]; simpl; intros H.
  - rewrite Ascii.eqb_refl. reflexivity.
  - apply orb_false_elim in H as [Hc Ha]. rewrite Hc, (IH Ha). reflexivity.
Qed.

Lemma Split_length (s : string) (sep : ascii) :
  (1 <= length (Split s sep))%nat
  /\ (has_byte sep s = true -> (2 <= length (Split s sep))%nat).
Proof.
  induction s as [|c s [IH1 IH2]]; simpl.
  - split; [lia | discriminate].
  - destruct (Ascii.eqb c sep); simpl.
    + split; [lia | intros _; lia].
    + destruct (Split s sep) as [|h t]; simpl in *; [lia|].
      split; [lia | exact IH2].
Qed.

Lemma is_hex_no_colon (s : string) : is_hex s = true -> has_byte ":" s = false.
Proof.
  induction s as [|c s IH]; simpl; [reflexivity|]. intros H.
  apply andb_prop in H as [Hc Hs]. rewrite (IH Hs), orb_false_r.
  apply bool_decide_eq_true_1 in Hc as [d Hd]. revert Hd.
  destruct c as [[] [] [] [] [] [] [] []]; vm_compute; intros H;
    try discriminate H; reflexivity.
Qed.

(** ** The address decoder *)

Lemma hexToDec_byte (token : string) (k : nat) :
  is_hex token = true -> (2 * k + 2 <= String.length token)%nat ->
  hexToDec (byte_text token k) = ([], Returned (byte_at token k))
  /\ 0 <= byte_at token k <= 255.
Proof.
  intros Hh Hlen. unfold byte_at.
  assert (String.length (byte_text token k) = 2%nat) as Hl
      by (apply length_substring; lia).
  assert (is_hex (byte_text token k) = true) as Hb
      by (apply is_hex_substring; exact Hh).
  pose proof (hex_value_bounds _ Hb) as Hv. rewrite Hl in Hv.
  change (16 ^ Z.of_nat 2) with 256 in Hv.
  split; [|lia]. apply hexToDec_hex; auto.
  - intros E. rewrite E in Hl. discriminate.
  - change (2 ^ 31) with 2147483648. lia.
Qed.

(** The dotted-quad branch: the four bytes of the token, last byte first. *)
Lemma convertIP_ipv4 (ip : string) :
  String.length ip = 8%nat -> is_hex ip = true ->
  convertIP ip
  = ([], Returned (FormatInt (byte_at ip 3) +:+ "." +:+
                   FormatInt (byte_at ip 2) +:+ "." +:+
                   FormatInt (byte_at ip 1) +:+ "." +:+
                   FormatInt (byte_at ip 0))).
Proof.
  intros Hlen Hh. unfold convertIP. rewrite Hlen.
  change (8 <? Z.of_nat 8) with false. cbv iota.
  rewrite !slice_string_ok by lia.
  change (substring 6 (8 - 6) ip) with (byte_text ip 3).
  change (substring 4 (6 - 4) ip) with (byte_text ip 2).
  change (substring 2 (4 - 2) ip) with (byte_text ip 1).
  change (substring 0 (2 - 0) ip) with (byte_text ip 0).
  rewrite bind_ret_l.
  rewrite (proj1 (hexToDec_byte ip 3 Hh ltac:(lia))).
  change ([], Returned (byte_at ip 3)) with (ret (byte_at ip 3)).
  rewrite !bind_ret_l.
  rewrite (proj1 (hexToDec_byte ip 2 Hh ltac:(lia))).
  change ([], Returned (byte_at ip 2)) with (ret (byte_at ip 2)).
  rewrite !bind_ret_l.
  rewrite (proj1 (hexToDec_byte ip 1 Hh ltac:(lia))).
  change ([], Returned (byte_at ip 1)) with (ret (byte_at ip 1)).
  rewrite !bind_ret_l.
  rewrite (proj1 (hexToDec_byte ip 0 Hh ltac:(lia))).
  change ([], Returned (byte_at ip 0)) with (ret (byte_at ip 0)).
  rewrite !bind_ret_l.
  reflexivity.
Qed.

(** The colon branch, taken by every token of more than 8 bytes: when the
    token has at least 32 bytes, bytes 0 to 15 are laid out pair by pair. *)
Lemma convertIP_ipv6 (ip : string) :
  (32 <= String.length ip)%nat ->
  convertIP ip
  = ([], Returned
           (byte_text ip 1 +:+ byte_text ip 0 +:+ ":" +:+
            byte_text ip 2 +:+ byte_text ip 3 +:+ ":" +:+
            byte_text ip 5 +:+ byte_text ip 4 +:+ ":" +:+
            byte_text ip 7 +:+ byte_text ip 6 +:+ ":" +:+
            byte_text ip 9 +:+ byte_text ip 8 +:+ ":" +:+
            byte_text ip 11 +:+ byte_text ip 10 +:+ ":" +:+
            byte_text ip 13 +:+ byte_text ip 12 +:+ ":" +:+
            byte_text ip 15 +:+ byte_text ip 14)).
Proof.
  intros Hlen. unfold convertIP.
  destruct (Z.ltb_spec 8 (Z.of_nat (String.length ip))); [|lia].
  rewrite !slice_string_ok by lia.
  rewrite !bind_ret_l. reflexivity.
Qed.

Lemma convertIP_short (ip : string) :
  (String.length ip < 8)%nat -> convertIP ip = ([], Panicked).
Proof.
  intros Hlen. unfold convertIP.
  destruct (Z.ltb_spec 8 (Z.of_nat (String.length ip))); [lia|].
  rewrite slice_string_panic by lia. reflexivity.
Qed.

Lemma convertIP_between (ip : string) :
  (8 < String.length ip < 32)%nat -> convertIP ip = ([], Panicked).
Proof.
  intros Hlen. unfold convertIP.
  destruct (Z.ltb_spec 8 (Z.of_nat (String.length ip))); [|lia].
  rewrite slice_string_panic by lia. reflexivity.
Qed.

(** ** Silent computations *)

Create HintDb silent.

Lemma silent_ret {A : Type} (a : A) : silent (ret a).
Proof. intros t x [= <- _]. reflexivity. Qed.

Lemma silent_panic {A : Type} : silent (@panic A).
Proof. intros t x H. discriminate H. Qed.

Lemma silent_bind {A B : Type} (m : M A) (k : A -> M B) :
  silent m -> (forall a, silent (k a)) -> silent (bind m k).
Proof.
  intros Hm Hk t b H. apply bind_inv in H as (t1 & a & t2 & H1 & H2 & ->).
  rewrite (Hm _ _ H1), (Hk _ _ _ H2). reflexivity.
Qed.

Lemma silent_index {A : Type} (a : list A) (i : nat) : silent (index a i).
Proof. unfold index. destruct (a !! i); [apply silent_ret | apply silent_panic]. Qed.

Lemma silent_slice_string (s : string) (lo hi : nat) :
  silent (slice_string s lo hi).
Proof.
  unfold slice_string.
  destruct (_ && _); [apply silent_ret | apply silent_panic].
Qed.

Lemma silent_hexToDec (h : string) : silent (hexToDec h).
Proof.
  unfold hexToDec. destruct (ParseInt h 16 32) as [d|e].
  - apply silent_ret.
  - intros t x H. discriminate H.
Qed.

#[local] Hint Resolve silent_ret silent_panic silent_bind silent_index
  silent_slice_string silent_hexToDec : silent.

Lemma silent_convertIP (ip : string) : silent (convertIP ip).
Proof. unfold convertIP. destruct (8 <? _); auto 40 with silent. Qed.

(** ** One line *)

Ltac bind_inversion H :=
  let t1 := fresh "t" in
  let a := fresh "x" in
  let t2 := fresh "t" in
  let H1 := fresh "H" in
  let E := fresh "E" in
  apply bind_inv in H as (t1 & a & t2 & H1 & H & E).

Lemma netstat_line_inv (line : string) (t : list event) (p : Process) :
  netstat_line line = (t, Returned p) ->
  t = [] /\ populated line p /\ unowned p.
Proof.
  unfold netstat_line. intros H.
  do 11 bind_inversion H.
  injection H as <- <-.
  repeat match goal with
         | H : index _ _ = _ |- _ => apply index_inv in H as [H ->]
         | H : convertIP _ = (?t, _) |- _ =>
             is_var t; pose proof (silent_convertIP _ _ _ H); subst t
         | H : hexToDec _ = (?t, _) |- _ =>
             is_var t; pose proof (silent_hexToDec _ _ _ H); subst t
         end.
  subst. split; [reflexivity|]. split.
  - unfold populated; simpl.
    eexists _, _, _, _, _, _. repeat (split; [eassumption|]). assumption.
  - repeat split.
Qed.

Lemma netstat_line_tokens (line : string) (t : list event) (p : Process) :
  netstat_line line = (t, Returned p) ->
  (4 <= length (lineArray_of line))%nat.
Proof.
  intros H. apply netstat_line_inv in H as (_ & Hp & _).
  destruct Hp as (f1 & f2 & a0 & a1 & b0 & b1 & Hp).
  destruct Hp as (_ & _ & _ & _ & _ & _ & _ & _ & _ & _ & H3).
  apply lookup_lt_Some in H3. lia.
Qed.

(** A line whose address tokens are well-formed IPv4 pairs is decoded, and
    whatever its state token is. *)
Lemma netstat_line_ipv4 (line f0 a pa b pb st : string) (more : list string) :
  lineArray_of line
  = f0 :: (a +:+ ":" +:+ pa) :: (b +:+ ":" +:+ pb) :: st :: more ->
  String.length a = 8%nat -> is_hex a = true ->
  String.length pa = 4%nat -> is_hex pa = true ->
  String.length b = 8%nat -> is_hex b = true ->
  String.length pb = 4%nat -> is_hex pb = true ->
  netstat_line line
  = ([], Returned
           {| User := ""; Name := ""; Pid := ""; Exe := "";
              State := st;
              IP := FormatInt (byte_at a 3) +:+ "." +:+
                    FormatInt (byte_at a 2) +:+ "." +:+
                    FormatInt (byte_at a 1) +:+ "." +:+
                    FormatInt (byte_at a 0);
              Port := hex_value pa;
              ForeignIP := FormatInt (byte_at b 3) +:+ "." +:+
                           FormatInt (byte_at b 2) +:+ "." +:+
                           FormatInt (byte_at b 1) +:+ "." +:+
                           FormatInt (byte_at b 0);
              ForeignPort := hex_value pb |}).
Proof.
  intros Hl La Ha Lpa Hpa Lb Hb Lpb Hpb.
  assert (forall x, String.length x = 4%nat -> is_hex x = true ->
                    hexToDec x = ret (hex_value x)) as Hport.
  { intros x Lx Hx. apply hexToDec_hex; auto.
    - intros E. rewrite E in Lx. discriminate.
    - pose proof (hex_value_bounds x Hx) as Hv. rewrite Lx in Hv.
      change (16 ^ Z.of_nat 4) with 65536 in Hv.
      change (2 ^ 31) with 2147483648. lia. }
  assert (forall x y, is_hex x = true -> is_hex y = true ->
                      Split (x +:+ ":" +:+ y) ":" = [x; y]) as Hsplit.
  { intros x y Hx Hy. change (":" +:+ y) with (String ":" y).
    rewrite Split_app_sep by (apply is_hex_no_colon; exact Hx).
    rewrite Split_no_sep by (apply is_hex_no_colon; exact Hy). reflexivity. }
  unfold netstat_line. rewrite Hl.
  erewrite index_Some by reflexivity. rewrite bind_ret_l.
  rewrite (Hsplit a pa Ha Hpa).
  erewrite index_Some by reflexivity. rewrite bind_ret_l.
  rewrite (convertIP_ipv4 a La Ha).
  match goal with |- context [bind ([], Returned ?v)] =>
    change ([], Returned v) with (ret v) end.
  rewrite bind_ret_l.
  erewrite index_Some by reflexivity. rewrite bind_ret_l.
  rewrite (Hport pa Lpa Hpa), bind_ret_l.
  erewrite index_Some by reflexivity. rewrite bind_ret_l.
  rewrite (Hsplit b pb Hb Hpb).
  erewrite index_Some by reflexivity. rewrite bind_ret_l.
  rewrite (convertIP_ipv4 b Lb Hb).
  match goal with |- context [bind ([], Returned ?v)] =>
    change ([], Returned v) with (ret v) end.
  rewrite bind_ret_l.
  erewrite index_Some by reflexivity. rewrite bind_ret_l.
  rewrite (Hport pb Lpb Hpb), bind_ret_l.
  erewrite index_Some by reflexivity. rewrite bind_ret_l.
  reflexivity.
Qed.

(** ** The loop over the lines *)

Lemma netstat_loop_inv (data : list string) (acc : list Process) t ps :
  netstat_loop data acc = (t, Returned ps) ->
  t = [] /\ exists ps',
      ps = acc ++ ps'
      /\ Forall2 (fun line p => netstat_line line = ([], Returned p)) data ps'.
Proof.
  revert acc t ps. induction data as [|line rest IH]; intros acc t ps H.
  - injection H as <- <-. split; [reflexivity|].
    exists []. rewrite app_nil_r. split; [reflexivity | constructor].
  - simpl in H. bind_inversion H. subst t.
    pose proof (netstat_line_inv _ _ _ H0) as (-> & _ & _).
    apply IH in H as (-> & ps' & -> & HF).
    split; [reflexivity|]. exists (x :: ps'). split.
    + rewrite <- app_assoc. reflexivity.
    + constructor; assumption.
Qed.

Lemma netstat_loop_ok (data : list string) (acc ps : list Process) :
  Forall2 (fun line p => netstat_line line = ([], Returned p)) data ps ->
  netstat_loop data acc = ([], Returned (acc ++ ps)).
Proof.
  intros HF. revert acc. induction HF as [|line p rest ps Hl HF IH]; intros acc.
  - simpl. rewrite app_nil_r. reflexivity.
  - simpl. rewrite (bind_returned _ _ _ _ _ _ Hl (IH (acc ++ [p]))).
    rewrite <- app_assoc. reflexivity.
Qed.

(** One line with fewer than four tokens and the loop does not return. *)
Lemma netstat_loop_short (data : list string) (acc : list Process) :
  Exists (fun line => (length (lineArray_of line) < 4)%nat) data ->
  abnormal (result (netstat_loop data acc)) = true.
Proof.
  intros HE. revert acc. induction data as [|line rest IH]; intros acc.
  - inversion HE.
  - simpl. destruct (netstat_line line) as [t [p| |n]] eqn:Hl;
      try (apply bind_abnormal_l; reflexivity).
    apply (bind_abnormal_r _ _ t p eq_refl).
    apply IH. apply Exists_cons in HE as [Hshort | Hrest]; [|exact Hrest].
    apply netstat_line_tokens in Hl. lia.
Qed.

(** ** Reading the table *)

Lemma selector_path_eqb (t : string) :
  selector_path t
  = if String.eqb t "tcp" then Some PROC_TCP
    else if String.eqb t "udp" then Some PROC_UDP
    else if String.eqb t "tcp6" then Some PROC_TCP6
    else if String.eqb t "udp6" then Some PROC_UDP6
    else None.
Proof.
  unfold selector_path.
  destruct (decide (t = "tcp")) as [->|Hne]; [reflexivity|].
  apply String.eqb_neq in Hne; rewrite Hne; clear Hne.
  destruct (decide (t = "udp")) as [->|Hne]; [reflexivity|].
  apply String.eqb_neq in Hne; rewrite Hne; clear Hne.
  destruct (decide (t = "tcp6")) as [->|Hne]; [reflexivity|].
  apply String.eqb_neq in Hne; rewrite Hne; clear Hne.
  destruct (decide (t = "udp6")) as [->|Hne]; [reflexivity|].
  apply String.eqb_neq in Hne; rewrite Hne; clear Hne.
  reflexivity.
Qed.

Lemma getData_unsupported (os : OS) (t : string) :
  selector_path t = None ->
  getData os t
  = ([Printf (t +:+ " is a invalid type, tcp and udp only!" +:+ String LF "")],
     Exited 1).
Proof.
  rewrite selector_path_eqb. unfold getData.
  destruct (String.eqb t "tcp"); [discriminate|].
  destruct (String.eqb t "udp"); [discriminate|].
  destruct (String.eqb t "tcp6"); [discriminate|].
  destruct (String.eqb t "udp6"); [discriminate|].
  reflexivity.
Qed.

Lemma getData_supported (os : OS) (t path : string) :
  selector_path t = Some path ->
  getData os t
  = (let! _ := emit (ReadFile path) in
     match ioutil_ReadFile os path with
     | inr err => let! _ := emit (Println err) in os_Exit 1
     | inl data =>
         let lines := Split data LF in
         slice_list lines 1 (Z.of_nat (length lines) - 1)
     end).
Proof.
  rewrite selector_path_eqb. unfold getData.
  destruct (String.eqb t "tcp"); [intros [= <-]; rewrite bind_ret_l; reflexivity|].
  destruct (String.eqb t "udp"); [intros [= <-]; rewrite bind_ret_l; reflexivity|].
  destruct (String.eqb t "tcp6"); [intros [= <-]; rewrite bind_ret_l; reflexivity|].
  destruct (String.eqb t "udp6"); [intros [= <-]; rewrite bind_ret_l; reflexivity|].
  discriminate.
Qed.

Lemma getData_read_error (os : OS) (t path : string) (err : error) :
  selector_path t = Some path -> ioutil_ReadFile os path = inr err ->
  getData os t = ([ReadFile path; Println err], Exited 1).
Proof.
  intros Hs Hr. rewrite (getData_supported os t path Hs), Hr. reflexivity.
Qed.

Lemma getData_read (os : OS) (t path raw : string) :
  selector_path t = Some path -> ioutil_ReadFile os path = inl raw ->
  getData os t
  = ([ReadFile path],
     if has_byte LF raw then Returned (body_lines raw) else Panicked).
Proof.
  intros Hs Hr. rewrite (getData_supported os t path Hs), Hr.
  unfold slice_list, body_lines.
  pose proof (Split_length raw LF) as [H1 H2].
  destruct (has_byte LF raw) eqn:Hb.
  - specialize (H2 eq_refl).
    destruct (Z.leb_spec 1 (Z.of_nat (length (Split raw LF)) - 1)); [|lia].
    destruct (Z.leb_spec (Z.of_nat (length (Split raw LF)) - 1)
                         (Z.of_nat (length (Split raw LF)))); [|lia].
    simpl andb. cbv iota.
    replace (Z.to_nat (Z.of_nat (length (Split raw LF)) - 1 - 1))
      with (length (Split raw LF) - 2)%nat by lia.
    reflexivity.
  - rewrite (Split_no_sep raw LF Hb). reflexivity.
Qed.

Lemma getData_inv (os : OS) (t : string) (tr : list event) (data : list string) :
  getData os t = (tr, Returned data) ->
  exists path raw,
    selector_path t = Some path /\ ioutil_ReadFile os path = inl raw
    /\ tr = [ReadFile path] /\ data = body_lines raw.
Proof.
  intros H. destruct (selector_path t) as [path|] eqn:Hs.
  - destruct (ioutil_ReadFile os path) as [raw|err] eqn:Hr.
    + rewrite (getData_read os t path raw Hs Hr) in H.
      destruct (has_byte LF raw); [|discriminate].
      injection H as <- <-. exists path, raw. auto.
    + rewrite (getData_read_error os t path err Hs Hr) in H. discriminate.
  - rewrite (getData_unsupported os t Hs) in H. discriminate.
Qed.

(** ** The claims *)

(** C7. For every token of 8 hexadecimal digits the decoder returns the four
    bytes of the token in reverse order, each printed in decimal (and each
    between 0 and 255), joined by dots; a token of hexadecimal digits that
    denotes a number below 2^31, as every port token does, is parsed to that
    number.  In particular [0100007F:0050] is decoded to address 127.0.0.1
    and port 80, [hexToDec "0050"] is 80 and [hexToDec "1F90"] is 8080. *)
Theorem C7_ipv4_address_and_port (ip h : string) :
  String.length ip = 8%nat -> is_hex ip = true ->
  (0 < String.length h)%nat -> is_hex h = true -> hex_value h < 2 ^ 31 ->
  convertIP ip
  = ([], Returned (FormatInt (byte_at ip 3) +:+ "." +:+
                   FormatInt (byte_at ip 2) +:+ "." +:+
                   FormatInt (byte_at ip 1) +:+ "." +:+
                   FormatInt (byte_at ip 0)))
  /\ Forall (fun k => 0 <= byte_at ip k <= 255) [0; 1; 2; 3]%nat
  /\ hexToDec h = ([], Returned (hex_value h))
  /\ hexToDec "0050" = ([], Returned 80)
  /\ hexToDec "1F90" = ([], Returned 8080)
  /\ convertIP "0100007F" = ([], Returned "127.0.0.1")
  /\ exists p, netstat_line (sample_line "0A") = ([], Returned p)
               /\ IP p = "127.0.0.1" /\ Port p = 80.
Proof.
  intros Lip Hip Lh Hh Hv. split; [apply convertIP_ipv4; assumption|].
  split.
  { do 4 (apply Forall_cons_2;
            [refine (proj2 (hexToDec_byte ip _ Hip _)); lia|]).
    apply Forall_nil_2. }
  split.
  { apply hexToDec_hex; auto. intros ->. simpl in Lh. lia. }
  repeat (split; [reflexivity|]).
  eexists. split; [reflexivity|]. split; reflexivity.
Qed.

Lemma C7_ipv4_address_and_port_witness :
  convertIP "0A00A8C0" = ([], Returned "192.168.0.10")
  /\ hexToDec "01BB" = ([], Returned 443).
Proof.
  pose proof (C7_ipv4_address_and_port "0A00A8C0" "01BB"
                eq_refl eq_refl ltac:(simpl; lia) eq_refl ltac:(vm_compute; reflexivity))
    as (H1 & _ & H2 & _).
  split; [exact H1 | exact H2].
Defined.

(** C2 (the code departs from the claim).  The claim reverses the bytes of
    each 4-byte word, so the loopback token of [/proc/net/tcp6] should read
    [0000:0000:0000:0000:0000:0000:0000:0001].  [convertIP] instead swaps the
    bytes pair by pair (and leaves the second pair as it is): at the token
    whose bytes are 00 to 0F it prints bytes 1 0 : 2 3 : 5 4 : 7 6 : ..., and
    the loopback address comes out with its last two groups exchanged. *)
Theorem C2_ipv6_byte_order_differs :
  convertIP loopback6 = ([], Returned "0000:0000:0000:0000:0000:0000:0001:0000")
  /\ spec_decodeAddress6 loopback6 = "0000:0000:0000:0000:0000:0000:0000:0001"
  /\ convertIP counting6 = ([], Returned "0100:0203:0504:0706:0908:0B0A:0D0C:0F0E")
  /\ spec_decodeAddress6 counting6 = "0302:0100:0706:0504:0B0A:0908:0F0E:0D0C"
  /\ convertIP loopback6 <> ([], Returned (spec_decodeAddress6 loopback6))
  /\ convertIP counting6 <> ([], Returned (spec_decodeAddress6 counting6)).
Proof.
  repeat (split; [reflexivity|]). split; discriminate.
Qed.

(** C1 (counterexample).  A table with a LISTEN line (code 0A) and a line
    with the unlisted code FF: both lines are decoded, the first record has
    state "0A", not "LISTEN", and the second has state "FF", not "unknown". *)
Lemma C1_state_is_not_a_name :
  exists p q,
    netstat (table_os (table [sample_header; sample_line "0A"; sample_line "FF"]))
            "tcp"
    = ([ReadFile PROC_TCP], Returned [p; q])
    /\ State p = "0A" /\ STATE_get "0A" = "LISTEN" /\ State p <> "LISTEN"
    /\ State q = "FF" /\ State q <> "unknown".
Proof.
  eexists _, _. split; [vm_compute; reflexivity|]. simpl.
  repeat split; try reflexivity; discriminate.
Qed.

(** C3 (counterexample).  A table whose first data line has two tokens and
    whose second data line is well-formed: the call panics, and no record is
    returned for the second line. *)
Lemma C3_short_line_panics :
  (length (lineArray_of "a b") < 4)%nat
  /\ netstat (table_os (table [sample_header; "a b"; sample_line "0A"])) "tcp"
     = ([ReadFile PROC_TCP], Panicked)
  /\ netstat (table_os (table [sample_header; sample_line "0A"])) "tcp"
     = ([ReadFile PROC_TCP],
        Returned [ {| User := ""; Name := ""; Pid := ""; Exe := "";
                      State := "0A"; IP := "127.0.0.1"; Port := 80;
                      ForeignIP := "0.0.0.0"; ForeignPort := 0 |} ]).
Proof.
  split; [vm_compute; lia|]. split; vm_compute; reflexivity.
Qed.

(** C3 (amended).  When some line of the table has fewer than 4 tokens
    after trimming, the snapshot call does not return: it ends abnormally
    (a panic or a process exit) at that line or before it, no line is
    skipped, and no record is returned for any line of the table. *)
Theorem C3_short_line_aborts
  (os : OS) (t : string) (tr : list event) (data : list string) :
  getData os t = (tr, Returned data) ->
  Exists (fun line => (length (lineArray_of line) < 4)%nat) data ->
  abnormal (result (netstat os t)) = true
  /\ forall tr' ps, netstat os t <> (tr', Returned ps).
Proof.
  intros Hd HE.
  assert (abnormal (result (netstat os t)) = true) as Hab.
  { unfold netstat. apply (bind_abnormal_r _ _ tr data Hd).
    apply netstat_loop_short. exact HE. }
  split; [exact Hab|]. intros tr' ps E. rewrite E in Hab. discriminate.
Qed.

Lemma C3_short_line_aborts_witness :
  abnormal
    (result (netstat (table_os (table [sample_header; "a b"; sample_line "0A"]))
                     "tcp")) = true.
Proof.
  refine (proj1 (C3_short_line_aborts
                   (table_os (table [sample_header; "a b"; sample_line "0A"]))
                   "tcp" [ReadFile PROC_TCP] ["a b"; sample_line "0A"] _ _)).
  - vm_compute. reflexivity.
  - apply Exists_cons_hd. vm_compute. lia.
Defined.

Lemma selector_path_None (t : string) :
  ~ In t selectors -> selector_path t = None.
Proof.
  intros H. unfold selector_path, selectors in *. simpl in H.
  repeat match goal with
         | |- context [decide (t = ?s)] =>
             destruct (decide (t = s)) as [->|_]; [exfalso; apply H; auto 6|]
         end.
  reflexivity.
Qed.

Lemma selector_path_Some (t path : string) :
  selector_path t = Some path -> In t selectors.
Proof.
  unfold selector_path, selectors. simpl.
  repeat match goal with
         | |- context [decide (t = ?s)] =>
             destruct (decide (t = s)) as [->|_]; [auto 6|]
         end.
  discriminate.
Qed.

(** C4 (counterexample).  The selector "icmp" is not surfaced as an error
    value: the call prints a message and the process exits with status 1;
    so does a call whose read of the kernel resource fails. *)
Lemma C4_unsupported_selector_exits :
  ~ In "icmp" selectors
  /\ getData broken_os "icmp"
     = ([Printf ("icmp is a invalid type, tcp and udp only!" +:+ String LF "")],
        Exited 1)
  /\ getData broken_os "tcp"
     = ([ReadFile PROC_TCP; Println (ErrOS "permission denied")], Exited 1).
Proof.
  split; [|split; reflexivity].
  unfold selectors. simpl. intros [H|[H|[H|[H|[]]]]]; discriminate H.
Qed.

(** C4 (amended).  For every selector outside tcp, udp, tcp6 and udp6 the
    table-reading operation prints a message and terminates the process
    with exit status 1, before any resource is read (no partial work);
    nothing is returned to the caller, and the snapshot call ends the same
    way.  Likewise, when the read of the kernel resource fails, the error is
    printed and the process exits with status 1. *)
Theorem C4_getData_exits (os : OS) (t : string) :
  ~ In t selectors ->
  getData os t
  = ([Printf (t +:+ " is a invalid type, tcp and udp only!" +:+ String LF "")],
     Exited 1)
  /\ netstat os t
     = ([Printf (t +:+ " is a invalid type, tcp and udp only!" +:+ String LF "")],
        Exited 1)
  /\ (forall t' path err,
         selector_path t' = Some path -> ioutil_ReadFile os path = inr err ->
         getData os t' = ([ReadFile path; Println err], Exited 1)
         /\ netstat os t' = ([ReadFile path; Println err], Exited 1)).
Proof.
  intros Hn. apply selector_path_None in Hn.
  pose proof (getData_unsupported os t Hn) as Hg.
  split; [exact Hg|]. split.
  - unfold netstat. rewrite Hg. reflexivity.
  - intros t' path err Hs Hr.
    pose proof (getData_read_error os t' path err Hs Hr) as Hg'.
    split; [exact Hg'|]. unfold netstat. rewrite Hg'. reflexivity.
Qed.

Lemma C4_getData_exits_witness :
  netstat broken_os "sctp"
  = ([Printf ("sctp is a invalid type, tcp and udp only!" +:+ String LF "")],
     Exited 1)
  /\ netstat broken_os "udp6"
     = ([ReadFile PROC_UDP6; Println (ErrOS "permission denied")], Exited 1).
Proof.
  assert (~ In "sctp" selectors) as Hn.
  { unfold selectors. simpl. intros [H|[H|[H|[H|[]]]]]; discriminate H. }
  pose proof (C4_getData_exits broken_os "sctp" Hn) as (_ & H1 & H2).
  split; [exact H1|].
  exact (proj2 (H2 "udp6" PROC_UDP6 (ErrOS "permission denied") eq_refl eq_refl)).
Defined.

(** C5 (counterexample).  A token of 2 characters makes the decoder panic,
    and a token of 34 characters is decoded: neither reports an error. *)
Lemma C5_other_lengths_no_error :
  convertIP "7F" = ([], Panicked)
  /\ convertIP "0100007F00" = ([], Panicked)
  /\ convertIP (counting6 +:+ "zz")
     = ([], Returned "0100:0203:0504:0706:0908:0B0A:0D0C:0F0E").
Proof. repeat split. Qed.

(** C5 (amended).  For every address token whose length is neither 8 nor
    32, the decoder reports no error.  A token shorter than 32 characters
    makes it panic on a slice bound; a token longer than 32 characters is
    decoded from its first 32 characters, what follows being ignored. *)
Theorem C5_other_lengths (ip : string) :
  String.length ip <> 8%nat -> String.length ip <> 32%nat ->
  ((String.length ip < 32)%nat -> convertIP ip = ([], Panicked))
  /\ ((32 < String.length ip)%nat ->
      exists s, convertIP ip = ([], Returned s)
                /\ convertIP (substring 0 32 ip) = ([], Returned s)).
Proof.
  intros H8 H32. split; intros Hlen.
  - destruct (Nat.lt_ge_cases (String.length ip) 8).
    + apply convertIP_short. assumption.
    + apply convertIP_between. lia.
  - eexists. split; [apply convertIP_ipv6; lia|].
    rewrite convertIP_ipv6 by (rewrite length_substring; simpl; lia).
    unfold byte_text. rewrite !substring_prefix by lia. reflexivity.
Qed.

Lemma C5_other_lengths_witness :
  convertIP "7F" = ([], Panicked)
  /\ exists s, convertIP (counting6 +:+ "zz") = ([], Returned s)
               /\ convertIP (substring 0 32 (counting6 +:+ "zz"))
                  = ([], Returned s).
Proof.
  split.
  - apply (proj1 (C5_other_lengths "7F" ltac:(simpl; lia) ltac:(simpl; lia))).
    simpl; lia.
  - apply (proj2 (C5_other_lengths (counting6 +:+ "zz")
                    ltac:(simpl; lia) ltac:(simpl; lia))).
    simpl; lia.
Defined.

(** C8.  When the table resource holds one header line and its line feed,
    and nothing else, the snapshot returns the empty collection; it neither
    panics nor exits. *)
Theorem C8_header_only (os : OS) (t path header : string) :
  selector_path t = Some path ->
  has_byte LF header = false ->
  ioutil_ReadFile os path = inl (header +:+ String LF "") ->
  netstat os t = ([ReadFile path], Returned []).
Proof.
  intros Hs Hh Hr. unfold netstat.
  rewrite (getData_read os t path _ Hs Hr).
  assert (Split (header +:+ String LF "") LF = [header; ""]) as HS
      by (rewrite Split_app_sep by exact Hh; reflexivity).
  assert (has_byte LF (header +:+ String LF "") = true) as ->.
  { clear. induction header as [|c s IH]; simpl.
    - reflexivity.
    - rewrite IH. apply orb_true_r. }
  unfold body_lines. rewrite HS. reflexivity.
Qed.

Lemma C8_header_only_witness :
  netstat (table_os (table [sample_header])) "udp"
  = ([ReadFile PROC_UDP], Returned []).
Proof.
  exact (C8_header_only (table_os (table [sample_header])) "udp" PROC_UDP
           sample_header eq_refl eq_refl eq_refl).
Defined.

(** C9.  For each of [Tcp], [Udp], [Tcp6] and [Udp6], every returned record
    has its state, addresses and ports taken from its line of the table,
    in the order of the table, and its [User], [Name], [Pid] and [Exe]
    fields are the empty string; the only system call made is the read of
    the table, so the process directory is never searched. *)
Theorem C9_records_unowned
  (os : OS) (op : OS -> M (list Process)) (tr : list event) (ps : list Process) :
  In op [Tcp; Udp; Tcp6; Udp6] ->
  op os = (tr, Returned ps) ->
  Forall unowned ps
  /\ exists path raw,
      ioutil_ReadFile os path = inl raw
      /\ tr = [ReadFile path]
      /\ Forall2 populated (body_lines raw) ps.
Proof.
  intros Hop H.
  assert (exists t, netstat os t = (tr, Returned ps)) as [t Hn].
  { simpl in Hop. destruct Hop as [<-|[<-|[<-|[<-|[]]]]]; eexists; exact H. }
  clear H Hop. unfold netstat in Hn. bind_inversion Hn. subst tr.
  apply getData_inv in H as (path & raw & Hs & Hr & -> & ->).
  apply netstat_loop_inv in Hn as (-> & ps' & -> & HF).
  rewrite app_nil_l. split.
  - clear -HF. induction HF as [|line p rest ps Hl HF IH]; constructor; auto.
    apply netstat_line_inv in Hl as (_ & _ & Hu). exact Hu.
  - exists path, raw. split; [exact Hr|]. split; [reflexivity|].
    eapply Forall2_impl; [exact HF|]. intros line p Hl.
    apply netstat_line_inv in Hl as (_ & Hp & _). exact Hp.
Qed.

Lemma C9_records_unowned_witness :
  Forall unowned
    [ {| User := ""; Name := ""; Pid := ""; Exe := "";
         State := "01"; IP := "127.0.0.1"; Port := 80;
         ForeignIP := "0.0.0.0"; ForeignPort := 0 |} ].
Proof.
  refine (proj1 (C9_records_unowned
                   (table_os (table [sample_header; sample_line "01"]))
                   Tcp [ReadFile PROC_TCP] _ _ _)).
  - left. reflexivity.
  - vm_compute. reflexivity.
Defined.

(** C10.  The table-reading operation returns exactly when the content read
    holds a line feed.  For a content without one (the empty content, or a
    header without its terminator) the split yields a single element, the
    slice [lines[1:len(lines)-1]] has its lower bound 1 above its upper
    bound 0, and the call panics: it returns neither lines nor an error,
    and the snapshot built on it panics too. *)
Theorem C10_getData_needs_line_feed (os : OS) (t path raw : string) :
  selector_path t = Some path ->
  ioutil_ReadFile os path = inl raw ->
  (has_byte LF raw = false ->
     Z.of_nat (length (Split raw LF)) - 1 < 1
     /\ getData os t = ([ReadFile path], Panicked)
     /\ netstat os t = ([ReadFile path], Panicked))
  /\ (has_byte LF raw = true ->
        getData os t = ([ReadFile path], Returned (body_lines raw))).
Proof.
  intros Hs Hr. pose proof (getData_read os t path raw Hs Hr) as Hg.
  split; intros Hb; rewrite Hb in Hg.
  - split; [rewrite (Split_no_sep raw LF Hb); simpl; lia|].
    split; [exact Hg|]. unfold netstat. rewrite Hg. reflexivity.
  - exact Hg.
Qed.

Lemma C10_getData_needs_line_feed_witness :
  getData (table_os "") "tcp" = ([ReadFile PROC_TCP], Panicked)
  /\ getData (table_os sample_header) "tcp6" = ([ReadFile PROC_TCP6], Panicked)
  /\ getData (table_os (table [sample_header; "x"])) "udp"
     = ([ReadFile PROC_UDP], Returned ["x"]).
Proof.
  split; [|split].
  - exact (proj1 (proj2 (proj1 (C10_getData_needs_line_feed
                                  (table_os "") "tcp" PROC_TCP "" eq_refl eq_refl)
                                eq_refl))).
  - exact (proj1 (proj2 (proj1 (C10_getData_needs_line_feed
                                  (table_os sample_header) "tcp6" PROC_TCP6
                                  sample_header eq_refl eq_refl)
                                eq_refl))).
  - exact (proj2 (C10_getData_needs_line_feed
                    (table_os (table [sample_header; "x"])) "udp" PROC_UDP
                    (table [sample_header; "x"]) eq_refl eq_refl)
                 eq_refl).
Defined.

(** ** The inode resolver *)

Lemma bind_emit {A : Type} (e : event) (m : M A) :
  (let! _ := emit e in m) = (e :: trace m, result m).
Proof. destruct m as [t o]. reflexivity. Qed.

Lemma findPid_loop_cons
  (os : OS) (re : Regexp) (item : string) (rest : list string) (pid : string) :
  findPid_loop os re (item :: rest) pid
  = (let! _ := emit (Readlink item) in
     match os_Readlink os item with
     | inr _ => findPid_loop os re rest pid
     | inl path =>
         if negb (String.length (FindString re path) =? 0)%nat then
           let! pid' := index (Split item "/") 2 in
           findPid_loop os re rest pid'
         else findPid_loop os re rest pid
     end).
Proof. reflexivity. Qed.

Lemma findPid_loop_last
  (os : OS) (inode : string) (re : Regexp) (d : list string) (pid : string) :
  (forall target,
      negb (String.length (FindString re target) =? 0)%nat
      = contains inode target) ->
  Forall (fun item => is_Some (Split item "/" !! 2%nat)) d ->
  findPid_loop os re d pid
  = (map Readlink d,
     Returned match last (List.filter (link_matches os inode) d) with
              | Some item => pid_of_link item
              | None => pid
              end).
Proof.
  intros Hre HF. revert pid. induction HF as [|item rest Hi HF IH]; intros pid.
  - reflexivity.
  - rewrite findPid_loop_cons, bind_emit. simpl List.filter.
    unfold link_matches at 1.
    destruct (os_Readlink os item) as [target|err].
    + rewrite Hre. destruct (contains inode target).
      * destruct Hi as [pid' Hi]. rewrite (index_Some _ _ _ Hi), bind_ret_l.
        rewrite IH, last_cons.
        destruct (last _); simpl; [reflexivity|].
        unfold pid_of_link. rewrite Hi. reflexivity.
      * rewrite IH. reflexivity.
    + rewrite IH. reflexivity.
Qed.

(** C6 (counterexample).  Processes 10 and 20 both hold a descriptor whose
    target contains the inode 1234.  The first matching link is that of
    process 10, yet the resolver goes on to read every remaining link and
    returns "20". *)
Lemma C6_first_match_does_not_win :
  findPid links_os literal_MustCompile "1234"
  = ([Glob fd_pattern; Readlink "/proc/10/fd/3"; Readlink "/proc/10/fd/4";
      Readlink "/proc/20/fd/5"; Readlink "/proc/30/fd/0"],
     Returned "20")
  /\ List.filter (link_matches links_os "1234") sample_links
     = ["/proc/10/fd/3"; "/proc/20/fd/5"]
  /\ first_match_pid links_os "1234" sample_links = "10".
Proof. repeat split. Qed.

(** C6 (amended).  For every inode string that the regular expression
    matches exactly in the targets that contain it, the resolver reads the
    target of every descriptor link of the enumeration, in order, and
    returns the process id derived from the last matching link: the last
    match wins, a later match replaces an earlier one, and the scan does
    not stop at a match.  With no matching link it returns "-". *)
Theorem C6_last_match_wins
  (os : OS) (compile : string -> option Regexp) (inode : string)
  (re : Regexp) (d : list string) :
  filepath_Glob os fd_pattern = inl d ->
  compile inode = Some re ->
  (forall target,
      negb (String.length (FindString re target) =? 0)%nat
      = contains inode target) ->
  Forall (fun item => is_Some (Split item "/" !! 2%nat)) d ->
  findPid os compile inode
  = (Glob fd_pattern :: map Readlink d, Returned (last_match_pid os inode d)).
Proof.
  intros Hg Hc Hre HF. unfold findPid. rewrite bind_emit.
  change "/proc/[0-9]*/fd/[0-9]*" with fd_pattern. rewrite Hg, Hc.
  rewrite (findPid_loop_last os inode re d "-" Hre HF). reflexivity.
Qed.

Lemma C6_last_match_wins_witness :
  findPid links_os literal_MustCompile "1234"
  = (Glob fd_pattern :: map Readlink sample_links, Returned "20").
Proof.
  refine (C6_last_match_wins links_os literal_MustCompile "1234"
            (literal_regexp "1234") sample_links eq_refl eq_refl _ _).
  - intros target. simpl. destruct (contains "1234" target); reflexivity.
  - unfold sample_links. repeat apply Forall_cons_2; try apply Forall_nil_2;
      vm_compute; eexists; reflexivity.
Defined.

(** ** The shape of the colon rendering *)

Lemma append_cons (x : ascii) (a b : string) :
  String x a +:+ b = String x (a +:+ b).
Proof. reflexivity. Qed.

Lemma append_assoc (a b c : string) : (a +:+ b) +:+ c = a +:+ (b +:+ c).
Proof.
  induction a as [|x a IH]; [reflexivity|]. rewrite !append_cons, IH. reflexivity.
Qed.

Lemma length_append (a b : string) :
  String.length (a +:+ b) = (String.length a + String.length b)%nat.
Proof.
  induction a as [|x a IH]; [reflexivity|]. rewrite append_cons. simpl.
  rewrite IH. reflexivity.
Qed.

Lemma is_hex_append (a b : string) :
  is_hex a = true -> is_hex b = true -> is_hex (a +:+ b) = true.
Proof.
  intros Ha Hb. induction a as [|x a IH]; [exact Hb|].
  rewrite append_cons. simpl in *.
  apply andb_prop in Ha as [Hx Ha]. rewrite Hx, (IH Ha). reflexivity.
Qed.

Lemma Split_group (x y rest : string) :
  is_hex x = true -> is_hex y = true ->
  Split (x +:+ y +:+ ":" +:+ rest) ":" = (x +:+ y) :: Split rest ":".
Proof.
  intros Hx Hy. rewrite <- append_assoc.
  change (":" +:+ rest) with (String ":" rest).
  apply Split_app_sep, is_hex_no_colon, is_hex_append; assumption.
Qed.

(** X1.  For every token of 32 hexadecimal digits the decoder returns
    exactly 8 groups of 4 hexadecimal digits, separated by colons. *)
Theorem convertIP_ipv6_eight_groups (ip : string) :
  String.length ip = 32%nat -> is_hex ip = true ->
  exists s,
    convertIP ip = ([], Returned s)
    /\ length (Split s ":") = 8%nat
    /\ Forall (fun g => String.length g = 4%nat /\ is_hex g = true)
              (Split s ":").
Proof.
  intros Hlen Hh. eexists. split; [apply convertIP_ipv6; lia|].
  assert (forall k, (k < 16)%nat ->
                    String.length (byte_text ip k) = 2%nat
                    /\ is_hex (byte_text ip k) = true) as Hb.
  { intros k Hk. split.
    - apply length_substring. lia.
    - apply is_hex_substring. exact Hh. }
  assert (forall j k, (j < 16)%nat -> (k < 16)%nat ->
                      String.length (byte_text ip j +:+ byte_text ip k) = 4%nat
                      /\ is_hex (byte_text ip j +:+ byte_text ip k) = true) as Hg.
  { intros j k Hj Hk. destruct (Hb j Hj) as [Lj Hxj]. destruct (Hb k Hk) as [Lk Hxk].
    split; [rewrite length_append; lia | apply is_hex_append; assumption]. }
  rewrite !Split_group by (apply Hb; lia).
  rewrite Split_no_sep by (apply is_hex_no_colon, Hg; lia).
  split; [reflexivity|].
  repeat (apply Forall_cons_2; [apply Hg; lia|]). apply Forall_nil_2.
Qed.

Lemma convertIP_ipv6_eight_groups_witness :
  exists s,
    convertIP loopback6 = ([], Returned s)
    /\ length (Split s ":") = 8%nat
    /\ Forall (fun g => String.length g = 4%nat /\ is_hex g = true)
              (Split s ":").
Proof.
  exact (convertIP_ipv6_eight_groups loopback6 eq_refl eq_refl).
Defined.

(** ** More on [hexToDec] *)

Lemma digit_val_hex_digit (c : ascii) (d : Z) :
  digit_val c = Some d -> d < 16 -> hex_digit c = Some d.
Proof.
  intros H Hd.
  destruct c as [[] [] [] [] [] [] [] []]; vm_compute in H;
    try discriminate H; injection H as <-;
    first [reflexivity | exfalso; revert Hd; vm_compute; intros Hd; apply Hd; reflexivity
          | exfalso; lia].
Qed.

Lemma is_hex_cons (c : ascii) (s : string) :
  is_hex (String c s) = true <-> (exists d, hex_digit c = Some d) /\ is_hex s = true.
Proof.
  simpl. rewrite andb_true_iff, bool_decide_eq_true. reflexivity.
Qed.

(** The digit loop on hexadecimal digits: the value, or a range error when
    the value exceeds [maxVal]. *)
Lemma ParseUint_loop_hex_range (maxVal : Z) (s : string) (n : Z) :
  is_hex s = true -> 0 <= n <= maxVal ->
  ParseUint_loop 16 maxVal s n
  = if n * 16 ^ Z.of_nat (String.length s) + hex_value s <=? maxVal
    then inl (n * 16 ^ Z.of_nat (String.length s) + hex_value s)
    else inr Range.
Proof.
  revert n. induction s as [|c s IH]; intros n H Hn.
  - simpl String.length. simpl hex_value. simpl ParseUint_loop.
    change (16 ^ Z.of_nat 0) with 1.
    replace (n * 1 + 0) with n by lia.
    destruct (Z.leb_spec n maxVal); [reflexivity | lia].
  - apply is_hex_cons in H as [[d Hd] Hs].
    pose proof (hex_value_bounds s Hs) as Hb.
    change (String.length (String c s)) with (S (String.length s)).
    rewrite Nat2Z.inj_succ, Z.pow_succ_r by lia.
    simpl hex_value. rewrite Hd. simpl default.
    apply hex_digit_digit_val in Hd as [Hdv Hd].
    simpl ParseUint_loop. rewrite Hdv.
    destruct (Z.leb_spec 16 d); [lia|].
    replace (n * (16 * 16 ^ Z.of_nat (String.length s))
             + (d * 16 ^ Z.of_nat (String.length s) + hex_value s))
      with ((n * 16 + d) * 16 ^ Z.of_nat (String.length s) + hex_value s) by ring.
    destruct (Z.ltb_spec maxVal (n * 16 + d)).
    + destruct (Z.leb_spec ((n * 16 + d) * 16 ^ Z.of_nat (String.length s)
                            + hex_value s) maxVal); [nia | reflexivity].
    + apply IH; [exact Hs | nia].
Qed.

(** The digit loop on anything else fails. *)
Lemma ParseUint_loop_not_hex (maxVal : Z) (s : string) (n : Z) :
  is_hex s = false -> exists e, ParseUint_loop 16 maxVal s n = inr e.
Proof.
  revert n. induction s as [|c s IH]; intros n H; [discriminate H|].
  simpl ParseUint_loop. destruct (digit_val c) as [d|] eqn:Hdv; [|eauto].
  destruct (Z.leb_spec 16 d); [eauto|].
  destruct (Z.ltb_spec maxVal (n * 16 + d)); [eauto|].
  apply IH. simpl in H. rewrite (digit_val_hex_digit c d Hdv) in H by lia.
  rewrite bool_decide_eq_true_2 in H by eauto. exact H.
Qed.

Lemma ParseUint_hex (s : string) :
  hex_digits s = true ->
  ParseUint s 16 32
  = if hex_value s <=? 4294967295 then inl (hex_value s) else inr Range.
Proof.
  unfold hex_digits. intros H. apply andb_prop in H as [Hne Hs].
  destruct s as [|c s]; [discriminate Hne|]. unfold ParseUint.
  change (2 ^ 32 - 1) with 4294967295.
  rewrite ParseUint_loop_hex_range by (auto; lia).
  rewrite Z.mul_0_l, Z.add_0_l. reflexivity.
Qed.

Lemma ParseUint_not_hex (s : string) :
  hex_digits s = false -> exists e, ParseUint s 16 32 = inr e.
Proof.
  unfold hex_digits. intros H. destruct s as [|c s]; [simpl; eauto|].
  simpl negb in H. rewrite andb_true_l in H.
  unfold ParseUint. apply ParseUint_loop_not_hex. exact H.
Qed.

Lemma hex_digits_value (s : string) : hex_digits s = true -> 0 <= hex_value s.
Proof.
  unfold hex_digits. intros H. apply andb_prop in H as [_ Hs].
  apply hex_value_bounds in Hs. lia.
Qed.

Lemma int32_iff (d : Z) :
  int32 d = true <-> -2147483648 <= d < 2147483648.
Proof.
  unfold int32. rewrite andb_true_iff, Z.leb_le, Z.ltb_lt.
  change (2 ^ 31) with 2147483648. lia.
Qed.

(** [ParseInt] on a body of hexadecimal digits, with or without a minus
    sign in front. *)
Lemma ParseInt_body (h body : string) (c : ascii) (rest : string) :
  h = String c rest ->
  body = (if Ascii.eqb c "+" || Ascii.eqb c "-" then rest else h) ->
  hex_digits body = true ->
  ParseInt h 16 32
  = let d := if Ascii.eqb c "-" then - hex_value body else hex_value body in
    if int32 d then inl d else inr (ErrRange "ParseInt" h).
Proof.
  intros -> -> Hb. unfold ParseInt.
  rewrite (ParseUint_hex _ Hb). pose proof (hex_digits_value _ Hb) as Hv.
  set (v := hex_value _) in *.
  change (2 ^ (32 - 1)) with 2147483648.
  cbv zeta. destruct (Ascii.eqb c "-").
  - pose proof (int32_iff (- v)) as Hi.
    destruct (Z.leb_spec v 4294967295).
    + simpl negb. rewrite andb_false_l, andb_true_l.
      destruct (Z.ltb_spec 2147483648 v); destruct (int32 (- v));
        try reflexivity; exfalso; intuition lia.
    + destruct (int32 (- v)); [exfalso; intuition lia | reflexivity].
  - pose proof (int32_iff v) as Hi.
    destruct (Z.leb_spec v 4294967295).
    + simpl negb. rewrite andb_true_l, andb_false_l.
      destruct (Z.leb_spec 2147483648 v); destruct (int32 v);
        try reflexivity; exfalso; intuition lia.
    + destruct (int32 v); [exfalso; intuition lia | reflexivity].
Qed.

Lemma ParseInt_no_body (h body : string) (c : ascii) (rest : string) :
  h = String c rest ->
  body = (if Ascii.eqb c "+" || Ascii.eqb c "-" then rest else h) ->
  hex_digits body = false ->
  exists e, ParseInt h 16 32 = inr e.
Proof.
  intros -> -> Hb. unfold ParseInt.
  destruct (ParseUint_not_hex _ Hb) as [e ->]. destruct e; eauto.
Qed.

(** What [hexToDec] does on every token. *)
Lemma hexToDec_spec (h : string) :
  match signed_hex_value h with
  | Some d =>
      hexToDec h
      = if int32 d then ([], Returned d)
        else ([Println (ErrRange "ParseInt" h)], Exited 1)
  | None => exists e, hexToDec h = ([Println e], Exited 1)
  end.
Proof.
  unfold hexToDec. destruct h as [|c rest]; [simpl; eauto|].
  unfold signed_hex_value.
  destruct (Ascii.eqb c "+") eqn:Hp; [|destruct (Ascii.eqb c "-") eqn:Hm].
  - apply Ascii.eqb_eq in Hp as ->.
    destruct (hex_digits rest) eqn:Hb.
    + rewrite (ParseInt_body _ rest "+" rest eq_refl eq_refl Hb).
      simpl. destruct (int32 (hex_value rest)); reflexivity.
    + destruct (ParseInt_no_body _ rest "+" rest eq_refl eq_refl Hb) as [e ->].
      eauto.
  - apply Ascii.eqb_eq in Hm as ->.
    destruct (hex_digits rest) eqn:Hb.
    + rewrite (ParseInt_body _ rest "-" rest eq_refl eq_refl Hb).
      simpl. destruct (int32 (- hex_value rest)); reflexivity.
    + destruct (ParseInt_no_body _ rest "-" rest eq_refl eq_refl Hb) as [e ->].
      eauto.
  - assert (hex_digits (String c rest) = is_hex (String c rest)) as Hd
        by reflexivity.
    destruct (is_hex (String c rest)) eqn:Hb.
    + rewrite (ParseInt_body _ (String c rest) c rest eq_refl
                 ltac:(rewrite Hp, Hm; reflexivity) Hd).
      rewrite Hm. cbv zeta.
      destruct (int32 (hex_value (String c rest))); reflexivity.
    + destruct (ParseInt_no_body _ (String c rest) c rest eq_refl
                  ltac:(rewrite Hp, Hm; reflexivity) Hd) as [e ->].
      eauto.
Qed.

Lemma hexToDec_inv (h : string) (t : list event) (d : Z) :
  hexToDec h = (t, Returned d) ->
  t = [] /\ signed_hex_value h = Some d /\ int32 d = true.
Proof.
  intros H. pose proof (hexToDec_spec h) as Hs.
  destruct (signed_hex_value h) as [d'|].
  - rewrite Hs in H. destruct (int32 d') eqn:Hr; [|discriminate H].
    injection H as <- <-. auto.
  - destruct Hs as [e He]. rewrite He in H. discriminate H.
Qed.

(** ** What a call can print *)

Lemma quiet_ret {A : Type} (a : A) : quiet (ret a).
Proof. left. exists a. reflexivity. Qed.

Lemma quiet_bind {A B : Type} (m : M A) (k : A -> M B) :
  quiet m -> (forall a, quiet (k a)) -> quiet (bind m k).
Proof.
  intros [[a ->]|[e ->]] Hk.
  - change ([], Returned a) with (ret a). rewrite bind_ret_l. apply Hk.
  - right. exists e. reflexivity.
Qed.

Lemma quiet_discreet {A : Type} (m : M A) : quiet m -> discreet m.
Proof. intros [H|H]; [left | right; right]; exact H. Qed.

Lemma discreet_ret {A : Type} (a : A) : discreet (ret a).
Proof. left. exists a. reflexivity. Qed.

Lemma discreet_panic {A : Type} : discreet (@panic A).
Proof. right. left. reflexivity. Qed.

Lemma discreet_bind {A B : Type} (m : M A) (k : A -> M B) :
  discreet m -> (forall a, discreet (k a)) -> discreet (bind m k).
Proof.
  intros [[a ->]|[->|[e ->]]] Hk.
  - change ([], Returned a) with (ret a). rewrite bind_ret_l. apply Hk.
  - right. left. reflexivity.
  - right. right. exists e. reflexivity.
Qed.

Lemma quiet_hexToDec (h : string) : quiet (hexToDec h).
Proof.
  unfold hexToDec. destruct (ParseInt h 16 32) as [d|e].
  - apply quiet_ret.
  - right. exists e. reflexivity.
Qed.

Lemma discreet_hexToDec (h : string) : discreet (hexToDec h).
Proof. apply quiet_discreet, quiet_hexToDec. Qed.

Lemma discreet_index {A : Type} (a : list A) (i : nat) : discreet (index a i).
Proof.
  unfold index. destruct (a !! i); [apply discreet_ret | apply discreet_panic].
Qed.

Lemma discreet_slice_string (s : string) (lo hi : nat) :
  discreet (slice_string s lo hi).
Proof.
  unfold slice_string.
  destruct (_ && _); [apply discreet_ret | apply discreet_panic].
Qed.

Create HintDb discreet.

#[local] Hint Resolve discreet_ret discreet_panic discreet_bind discreet_index
  discreet_slice_string discreet_hexToDec : discreet.

Lemma discreet_convertIP (ip : string) : discreet (convertIP ip).
Proof. unfold convertIP. destruct (8 <? _); auto 40 with discreet. Qed.

#[local] Hint Resolve discreet_convertIP : discreet.

Lemma discreet_netstat_line (line : string) : discreet (netstat_line line).
Proof. unfold netstat_line. auto 40 with discreet. Qed.

Lemma discreet_netstat_loop (data : list string) (acc : list Process) :
  discreet (netstat_loop data acc).
Proof.
  revert acc. induction data as [|line rest IH]; intros acc; simpl.
  - apply discreet_ret.
  - apply discreet_bind; [apply discreet_netstat_line | intros p; apply IH].
Qed.

(** X7.  On a token of exactly 8 bytes the decoder never panics: it either
    returns, having printed nothing, or prints one parse error and the
    process exits with status 1. *)
Theorem convertIP_8_quiet (ip : string) :
  String.length ip = 8%nat -> quiet (convertIP ip).
Proof.
  intros Hlen. unfold convertIP. rewrite Hlen.
  change (8 <? Z.of_nat 8) with false. cbv iota.
  rewrite !slice_string_ok by lia.
  repeat first [ apply quiet_ret | apply quiet_hexToDec
               | apply quiet_bind; [|intros ?] ].
Qed.

Lemma convertIP_8_quiet_witness :
  quiet (convertIP "0100007F") /\ quiet (convertIP "0100007G").
Proof.
  split.
  - exact (convertIP_8_quiet "0100007F" eq_refl).
  - exact (convertIP_8_quiet "0100007G" eq_refl).
Defined.

(** ** Tokens of a line *)

Lemma removeEmpty_not_empty (array : list string) :
  Forall (fun s => s <> "") (removeEmpty array).
Proof.
  induction array as [|i rest IH]; simpl; [constructor|].
  destruct (String.eqb_spec i ""); [exact IH | constructor; assumption].
Qed.

(** X2.  [removeEmpty] keeps the strings of its argument in their order and
    drops only empty ones: the result is exactly the argument with its
    empty strings taken out.  So it is a sublist of the argument, none of
    its elements is empty, every non-empty string occurs in it as many
    times as in the argument (and is in it when it is in the argument), and
    its length is that of the argument less the number of empty strings. *)
Theorem removeEmpty_keeps_non_empty (array : list string) :
  removeEmpty array = List.filter (fun s => negb (String.eqb s "")) array
  /\ removeEmpty array `sublist_of` array
  /\ Forall (fun s => s <> "") (removeEmpty array)
  /\ (forall s, s <> "" -> s ∈ array -> s ∈ removeEmpty array)
  /\ (forall s, s <> "" ->
        count_occ string_dec (removeEmpty array) s = count_occ string_dec array s)
  /\ (length (removeEmpty array) + count_occ string_dec array "" = length array)%nat.
Proof.
  induction array as [|i rest (IH0 & IH1 & IH2 & IH3 & IH4 & IH5)].
  - simpl. repeat split; try constructor. intros s _ H. exact H.
  - simpl removeEmpty. simpl List.filter. simpl count_occ. simpl length.
    destruct (String.eqb_spec i "") as [->|Hne]; simpl negb; cbv iota.
    + split; [exact IH0|]. split; [apply sublist_cons, IH1|].
      split; [exact IH2|]. split; [|split].
      * intros s Hs H. apply elem_of_cons in H as [->|H]; [congruence|].
        apply IH3; assumption.
      * intros s Hs. destruct (string_dec "" s) as [E|_]; [congruence|].
        apply IH4. exact Hs.
      * destruct (string_dec "" "") as [_|E]; [lia | congruence].
    + split; [f_equal; exact IH0|]. split; [apply sublist_skip, IH1|].
      split; [constructor; assumption|]. split; [|split].
      * intros s Hs H. apply elem_of_cons in H as [->|H].
        -- apply list_elem_of_here.
        -- apply list_elem_of_further, IH3; assumption.
      * intros s Hs. simpl count_occ.
        destruct (string_dec i s); [f_equal|]; apply IH4; exact Hs.
      * destruct (string_dec i "") as [E|_]; [congruence|]. simpl. lia.
Qed.

Lemma Split_pieces (s : string) (sep : ascii) :
  Forall (fun piece => has_byte sep piece = false) (Split s sep).
Proof.
  induction s as [|c s IH]; simpl.
  - repeat constructor.
  - destruct (Ascii.eqb c sep) eqn:Hc.
    + constructor; [reflexivity | exact IH].
    + destruct (Split s sep) as [|h t]; [repeat constructor; simpl; rewrite Hc; reflexivity|].
      apply Forall_cons in IH as [Hh Ht]. constructor; [|exact Ht].
      simpl. rewrite Hc, Hh. reflexivity.
Qed.

Lemma removeEmpty_Forall (P : string -> Prop) (array : list string) :
  Forall P array -> Forall P (removeEmpty array).
Proof.
  induction 1 as [|i rest Hi _ IH]; simpl; [constructor|].
  destruct (String.eqb i ""); [exact IH | constructor; assumption].
Qed.

(** X3.  Every token that [netstat] takes from a line is non-empty and has
    no space in it, whatever the line is. *)
Theorem lineArray_of_tokens (line : string) :
  Forall (fun token => token <> "" /\ has_byte " " token = false)
         (lineArray_of line).
Proof.
  unfold lineArray_of. apply Forall_and. split.
  - apply removeEmpty_not_empty.
  - apply removeEmpty_Forall, Split_pieces.
Qed.

(** ** Tables *)

Lemma append_nil_r (s : string) : s +:+ "" = s.
Proof.
  induction s as [|c s IH]; [reflexivity|]. rewrite append_cons, IH. reflexivity.
Qed.

Lemma has_byte_append (c : ascii) (a b : string) :
  has_byte c (a +:+ b) = has_byte c a || has_byte c b.
Proof.
  induction a as [|x a IH]; [reflexivity|].
  rewrite append_cons. simpl. rewrite IH, orb_assoc. reflexivity.
Qed.

(** Splitting the content of a table, and what follows its last line feed,
    gives the lines back. *)
Lemma Split_table (lines : list string) (rest : string) :
  Forall (fun line => has_byte LF line = false) lines ->
  has_byte LF rest = false ->
  Split (table lines +:+ rest) LF = lines ++ [rest].
Proof.
  intros HF Hr. induction HF as [|line lines Hl _ IH].
  - simpl. apply Split_no_sep. exact Hr.
  - simpl table. rewrite append_assoc, append_cons.
    rewrite Split_app_sep by exact Hl. rewrite IH. reflexivity.
Qed.

Lemma body_lines_table (header : string) (lines : list string) (rest : string) :
  has_byte LF header = false ->
  Forall (fun line => has_byte LF line = false) lines ->
  has_byte LF rest = false ->
  body_lines (table (header :: lines) +:+ rest) = lines.
Proof.
  intros Hh HF Hr. unfold body_lines.
  rewrite Split_table by (try constructor; assumption).
  change ((header :: lines) ++ [rest]) with (header :: (lines ++ [rest])).
  change (drop 1 (header :: (lines ++ [rest]))) with (lines ++ [rest]).
  replace (length (header :: (lines ++ [rest])) - 2)%nat with (length lines)
    by (rewrite length_cons, length_app; simpl; lia).
  apply take_app_length.
Qed.

Lemma has_byte_table (header : string) (lines : list string) (rest : string) :
  has_byte LF (table (header :: lines) +:+ rest) = true.
Proof.
  simpl table. rewrite append_assoc, has_byte_append, append_cons.
  change (has_byte LF (String LF ?x)) with (Ascii.eqb LF LF || has_byte LF x).
  rewrite Ascii.eqb_refl. apply orb_true_r.
Qed.

Lemma getData_table_lines
  (os : OS) (t path header : string) (lines : list string) (rest : string) :
  selector_path t = Some path ->
  has_byte LF header = false ->
  Forall (fun line => has_byte LF line = false) lines ->
  has_byte LF rest = false ->
  ioutil_ReadFile os path = inl (table (header :: lines) +:+ rest) ->
  getData os t = ([ReadFile path], Returned lines).
Proof.
  intros Hs Hh HF Hr Hread. rewrite (getData_read os t path _ Hs Hread).
  rewrite has_byte_table, body_lines_table by assumption. reflexivity.
Qed.

(** X4.  When the resource holds a header line and then lines that each end
    in a line feed, the table reader returns exactly those lines, in order.
    Whatever follows the last line feed is dropped: a last line without its
    terminator is lost. *)
Theorem getData_table
  (os : OS) (t path header : string) (lines : list string) (rest : string) :
  selector_path t = Some path ->
  has_byte LF header = false ->
  Forall (fun line => has_byte LF line = false) lines ->
  has_byte LF rest = false ->
  ioutil_ReadFile os path = inl (table (header :: lines) +:+ rest) ->
  getData os t = ([ReadFile path], Returned lines).
Proof. apply getData_table_lines. Qed.

Lemma getData_table_witness :
  getData (table_os (table [sample_header; "one"; "two"] +:+ "three")) "tcp"
  = ([ReadFile PROC_TCP], Returned ["one"; "two"]).
Proof.
  refine (getData_table
            (table_os (table [sample_header; "one"; "two"] +:+ "three"))
            "tcp" PROC_TCP sample_header ["one"; "two"] "three"
            eq_refl eq_refl _ eq_refl eq_refl).
  repeat (apply Forall_cons_2; [reflexivity|]). apply Forall_nil_2.
Defined.

(** ** More on the address decoder *)

(** X5.  [hexToDec] on every token: a token of hexadecimal digits (of either
    case) after an optional sign is parsed to the number it denotes when
    that number fits a signed integer of 32 bits, and is a range error when
    it does not; every other token, the empty one included, is an error.  On
    an error the error is printed and the process exits with status 1; in no
    case does the call panic. *)
Theorem hexToDec_every_token (h : string) :
  match signed_hex_value h with
  | Some d =>
      hexToDec h
      = if int32 d then ([], Returned d)
        else ([Println (ErrRange "ParseInt" h)], Exited 1)
  | None => exists e, hexToDec h = ([Println e], Exited 1)
  end.
Proof. exact (hexToDec_spec h). Qed.

Lemma hex_char_digit (d : Z) :
  0 <= d < 16 -> hex_digit (hex_char d) = Some d.
Proof.
  intros H.
  assert (d = 0 \/ d = 1 \/ d = 2 \/ d = 3 \/ d = 4 \/ d = 5 \/ d = 6 \/ d = 7
          \/ d = 8 \/ d = 9 \/ d = 10 \/ d = 11 \/ d = 12 \/ d = 13 \/ d = 14
          \/ d = 15) as Hd by lia.
  repeat (destruct Hd as [->|Hd]; [reflexivity|]). subst d. reflexivity.
Qed.

Lemma hex2_byte (x : Z) :
  0 <= x <= 255 -> is_hex (hex2 x) = true /\ hex_value (hex2 x) = x.
Proof.
  intros Hx.
  assert (0 <= x / 16 < 16) as Hq by (split; [apply Z.div_pos | apply Z.div_lt_upper_bound]; lia).
  assert (0 <= x mod 16 < 16) as Hr by (apply Z.mod_pos_bound; lia).
  unfold hex2. simpl is_hex. simpl hex_value.
  rewrite (hex_char_digit _ Hq), (hex_char_digit _ Hr). split.
  - rewrite !bool_decide_eq_true_2 by eauto. reflexivity.
  - simpl default. change (16 ^ Z.of_nat 1) with 16. change (16 ^ Z.of_nat 0) with 1.
    pose proof (Z.div_mod x 16 ltac:(lia)). lia.
Qed.

(** X6.  Round trip for IPv4: the token that holds the four bytes of the
    address [a.b.c.d] in reverse order, two upper-case hexadecimal digits
    each, is decoded to the dotted quad [a.b.c.d]. *)
Theorem convertIP_encode_ipv4 (a b c d : Z) :
  0 <= a <= 255 -> 0 <= b <= 255 -> 0 <= c <= 255 -> 0 <= d <= 255 ->
  convertIP (encode_ipv4 a b c d) = ([], Returned (dotted_quad a b c d)).
Proof.
  intros Ha Hb Hc Hd.
  destruct (hex2_byte a Ha) as [Xa Va]. destruct (hex2_byte b Hb) as [Xb Vb].
  destruct (hex2_byte c Hc) as [Xc Vc]. destruct (hex2_byte d Hd) as [Xd Vd].
  rewrite convertIP_ipv4.
  - change (byte_at (encode_ipv4 a b c d) 3) with (hex_value (hex2 a)).
    change (byte_at (encode_ipv4 a b c d) 2) with (hex_value (hex2 b)).
    change (byte_at (encode_ipv4 a b c d) 1) with (hex_value (hex2 c)).
    change (byte_at (encode_ipv4 a b c d) 0) with (hex_value (hex2 d)).
    rewrite Va, Vb, Vc, Vd. reflexivity.
  - reflexivity.
  - unfold encode_ipv4. repeat apply is_hex_append; assumption.
Qed.

Lemma convertIP_encode_ipv4_witness :
  encode_ipv4 192 168 0 10 = "0A00A8C0"
  /\ convertIP "0A00A8C0" = ([], Returned "192.168.0.10").
Proof.
  split; [reflexivity|].
  exact (convertIP_encode_ipv4 192 168 0 10
           ltac:(lia) ltac:(lia) ltac:(lia) ltac:(lia)).
Defined.

(** X8.  On a token of 32 bytes or more the decoder checks no character: it
    returns, having printed nothing, a string of exactly 39 bytes, whether
    the bytes of the token are hexadecimal digits or not. *)
Theorem convertIP_long_unchecked (ip : string) :
  (32 <= String.length ip)%nat ->
  exists s, convertIP ip = ([], Returned s) /\ String.length s = 39%nat.
Proof.
  intros Hlen. eexists. split; [apply convertIP_ipv6; exact Hlen|].
  assert (forall k, (k < 16)%nat -> String.length (byte_text ip k) = 2%nat) as Hb
      by (intros k Hk; apply length_substring; lia).
  rewrite !length_append, !Hb by lia. reflexivity.
Qed.

Lemma convertIP_long_unchecked_witness :
  exists s, convertIP "no hexadecimal digits in this token" = ([], Returned s)
            /\ String.length s = 39%nat.
Proof.
  exact (convertIP_long_unchecked "no hexadecimal digits in this token"
           ltac:(simpl; lia)).
Defined.

(** ** More on the snapshot *)

Lemma netstat_line_fields
  (line f0 a pa b pb st : string) (more : list string)
  (ia ib : string) (va vb : Z) :
  lineArray_of line
  = f0 :: (a +:+ ":" +:+ pa) :: (b +:+ ":" +:+ pb) :: st :: more ->
  is_hex a = true -> is_hex pa = true -> is_hex b = true -> is_hex pb = true ->
  convertIP a = ([], Returned ia) -> hexToDec pa = ([], Returned va) ->
  convertIP b = ([], Returned ib) -> hexToDec pb = ([], Returned vb) ->
  netstat_line line
  = ([], Returned {| User := ""; Name := ""; Pid := ""; Exe := "";
                     State := st; IP := ia; Port := va;
                     ForeignIP := ib; ForeignPort := vb |}).
Proof.
  intros Hl Ha Hpa Hb Hpb Ca Cpa Cb Cpb.
  assert (forall x y, is_hex x = true -> is_hex y = true ->
                      Split (x +:+ ":" +:+ y) ":" = [x; y]) as Hsplit.
  { intros x y Hx Hy. change (":" +:+ y) with (String ":" y).
    rewrite Split_app_sep by (apply is_hex_no_colon; exact Hx).
    rewrite Split_no_sep by (apply is_hex_no_colon; exact Hy). reflexivity. }
  unfold netstat_line. rewrite Hl.
  erewrite index_Some by reflexivity. rewrite bind_ret_l.
  rewrite (Hsplit a pa Ha Hpa).
  erewrite index_Some by reflexivity. rewrite bind_ret_l.
  rewrite Ca. change ([], Returned ia) with (ret ia). rewrite bind_ret_l.
  erewrite index_Some by reflexivity. rewrite bind_ret_l.
  rewrite Cpa. change ([], Returned va) with (ret va). rewrite bind_ret_l.
  erewrite index_Some by reflexivity. rewrite bind_ret_l.
  rewrite (Hsplit b pb Hb Hpb).
  erewrite index_Some by reflexivity. rewrite bind_ret_l.
  rewrite Cb. change ([], Returned ib) with (ret ib). rewrite bind_ret_l.
  erewrite index_Some by reflexivity. rewrite bind_ret_l.
  rewrite Cpb. change ([], Returned vb) with (ret vb). rewrite bind_ret_l.
  erewrite index_Some by reflexivity. rewrite bind_ret_l.
  reflexivity.
Qed.

Lemma convertIP_address_token (a : string) :
  address_token a = true -> exists ia, convertIP a = ([], Returned ia).
Proof.
  unfold address_token. intros H. apply andb_prop in H as [Hl Ha].
  apply orb_prop in Hl as [Hl|Hl]; apply Nat.eqb_eq in Hl.
  - eexists. apply convertIP_ipv4; assumption.
  - eexists. apply convertIP_ipv6. lia.
Qed.

Lemma hexToDec_port_token (p : string) :
  port_token p = true ->
  hexToDec p = ([], Returned (hex_value p)) /\ 0 <= hex_value p <= 65535.
Proof.
  unfold port_token. intros H. apply andb_prop in H as [Hl Hp].
  apply Nat.eqb_eq in Hl.
  pose proof (hex_value_bounds p Hp) as Hv. rewrite Hl in Hv.
  change (16 ^ Z.of_nat 4) with 65536 in Hv. split; [|lia].
  apply hexToDec_hex; auto.
  - intros E. rewrite E in Hl. discriminate.
  - change (2 ^ 31) with 2147483648. lia.
Qed.

Lemma netstat_line_socket (line st : string) :
  socket_line line st ->
  exists p, netstat_line line = ([], Returned p)
            /\ State p = st
            /\ 0 <= Port p <= 65535 /\ 0 <= ForeignPort p <= 65535
            /\ unowned p.
Proof.
  intros (f0 & a & pa & b & pb & more & Hl & Ha & Hpa & Hb & Hpb).
  destruct (convertIP_address_token a Ha) as [ia Ca].
  destruct (convertIP_address_token b Hb) as [ib Cb].
  destruct (hexToDec_port_token pa Hpa) as [Cpa Va].
  destruct (hexToDec_port_token pb Hpb) as [Cpb Vb].
  unfold address_token, port_token in *.
  apply andb_prop in Ha as [_ Ha]. apply andb_prop in Hb as [_ Hb].
  apply andb_prop in Hpa as [_ Hpa]. apply andb_prop in Hpb as [_ Hpb].
  eexists. split; [eapply netstat_line_fields; eassumption|]. simpl.
  repeat split; lia.
Qed.

(** X9.  A table of well-formed lines is decoded whole: when every line
    after the header has two address tokens of 8 or of 32 hexadecimal
    digits, each with a port of 4 hexadecimal digits, the snapshot returns
    one record per line, in the order of the table; each record has the
    state token of its line, ports between 0 and 65535, and empty owner
    fields.  The only system call is the read of the table. *)
Theorem netstat_socket_table
  (os : OS) (t path header : string) (lines : list string) :
  selector_path t = Some path ->
  has_byte LF header = false ->
  Forall (fun line => has_byte LF line = false
                      /\ exists st, socket_line line st) lines ->
  ioutil_ReadFile os path = inl (table (header :: lines)) ->
  exists ps,
    netstat os t = ([ReadFile path], Returned ps)
    /\ Forall2 (fun line p =>
                  socket_line line (State p)
                  /\ 0 <= Port p <= 65535 /\ 0 <= ForeignPort p <= 65535
                  /\ unowned p) lines ps.
Proof.
  intros Hs Hh HF Hread.
  assert (getData os t = ([ReadFile path], Returned lines)) as Hg.
  { apply (getData_table_lines os t path header lines "" Hs Hh); auto.
    - eapply Forall_impl; [exact HF|]. intros line [H _]. exact H.
    - rewrite append_nil_r. exact Hread. }
  assert (exists ps,
             Forall2 (fun line p => netstat_line line = ([], Returned p)) lines ps
             /\ Forall2 (fun line p =>
                           socket_line line (State p)
                           /\ 0 <= Port p <= 65535 /\ 0 <= ForeignPort p <= 65535
                           /\ unowned p) lines ps) as (ps & H1 & H2).
  { clear -HF. induction HF as [|line lines [_ [st Hl]] _ (ps & H1 & H2)].
    - exists []. split; constructor.
    - destruct (netstat_line_socket line st Hl) as (p & Hp & <- & Hq).
      exists (p :: ps). split; constructor; auto. }
  exists ps. split; [|exact H2].
  unfold netstat. rewrite (bind_returned _ _ _ _ _ _ Hg (netstat_loop_ok lines [] ps H1)).
  reflexivity.
Qed.

Lemma netstat_socket_table_witness :
  exists ps,
    netstat (table_os (table [sample_header; sample_line "01";
                              "1: " +:+ loopback6 +:+ ":0016 " +:+ loopback6
                              +:+ ":0000 0A"]))
            "tcp6"
    = ([ReadFile PROC_TCP6], Returned ps)
    /\ Forall2 (fun line p =>
                  socket_line line (State p)
                  /\ 0 <= Port p <= 65535 /\ 0 <= ForeignPort p <= 65535
                  /\ unowned p)
               [sample_line "01";
                "1: " +:+ loopback6 +:+ ":0016 " +:+ loopback6 +:+ ":0000 0A"]
               ps.
Proof.
  refine (netstat_socket_table
            (table_os (table [sample_header; sample_line "01";
                              "1: " +:+ loopback6 +:+ ":0016 " +:+ loopback6
                              +:+ ":0000 0A"]))
            "tcp6" PROC_TCP6 sample_header
            [sample_line "01";
             "1: " +:+ loopback6 +:+ ":0016 " +:+ loopback6 +:+ ":0000 0A"]
            eq_refl eq_refl _ eq_refl).
  repeat (apply Forall_cons_2; [split; [reflexivity|]|]); try apply Forall_nil_2.
  - exists "01", "0:", "0100007F", "0050", "00000000", "0000".
    eexists. vm_compute. repeat split.
  - exists "0A", "1:", loopback6, "0016", loopback6, "0000".
    eexists. vm_compute. repeat split.
Defined.

(** X10.  What a snapshot call can be seen to do, on every system and every
    selector.  With an unknown selector it prints its message and exits
    with status 1.  Otherwise it reads the table of the selector, once, and
    then either makes no further system call and prints nothing (whether it
    returns or panics), or prints one error and exits with status 1.  It
    never lists [/proc] and never reads a link. *)
Theorem netstat_observable (os : OS) (t : string) :
  match selector_path t with
  | None =>
      netstat os t
      = ([Printf (t +:+ " is a invalid type, tcp and udp only!" +:+ String LF "")],
         Exited 1)
  | Some path =>
      (exists ps, netstat os t = ([ReadFile path], Returned ps))
      \/ netstat os t = ([ReadFile path], Panicked)
      \/ exists e, netstat os t = ([ReadFile path; Println e], Exited 1)
  end.
Proof.
  destruct (selector_path t) as [path|] eqn:Hs.
  - unfold netstat. destruct (ioutil_ReadFile os path) as [raw|err] eqn:Hr.
    + rewrite (getData_read os t path raw Hs Hr).
      destruct (has_byte LF raw); [|right; left; reflexivity].
      destruct (discreet_netstat_loop (body_lines raw) [])
        as [[ps E]|[E|[e E]]]; simpl; rewrite E.
      * left. exists ps. reflexivity.
      * right. left. reflexivity.
      * right. right. exists e. reflexivity.
    + rewrite (getData_read_error os t path err Hs Hr).
      right. right. exists err. reflexivity.
  - unfold netstat. rewrite (getData_unsupported os t Hs). reflexivity.
Qed.

(** X11.  A snapshot depends on the system through the content of the one
    table its selector names, and on nothing else: two systems that agree
    on that resource give the same outcome and the same trace. *)
Theorem netstat_one_resource (os os' : OS) (t : string) :
  (forall path, selector_path t = Some path ->
                ioutil_ReadFile os path = ioutil_ReadFile os' path) ->
  netstat os t = netstat os' t.
Proof.
  intros H. unfold netstat. destruct (selector_path t) as [path|] eqn:Hs.
  - rewrite (getData_supported os t path Hs), (getData_supported os' t path Hs).
    rewrite (H path eq_refl). reflexivity.
  - rewrite (getData_unsupported os t Hs), (getData_unsupported os' t Hs).
    reflexivity.
Qed.

Lemma netstat_one_resource_witness :
  Tcp (table_os (table [sample_header; sample_line "0A"]))
  = Tcp {| ioutil_ReadFile := fun path =>
             if String.eqb path PROC_TCP
             then inl (table [sample_header; sample_line "0A"])
             else inr (ErrOS "no such file or directory");
           filepath_Glob := fun _ => inr ErrBadPattern;
           os_Readlink := fun _ => inl "socket:[12345]" |}.
Proof.
  apply (netstat_one_resource _ _ "tcp").
  intros path [= <-]. reflexivity.
Defined.

(** X12.  The first line that fails decides the snapshot: when the lines
    before it are decoded and its own decoding panics or exits, the snapshot
    ends the same way with the same output; the records of the earlier lines
    are lost and the later lines are never looked at. *)
Theorem netstat_first_failure
  (os : OS) (t : string) (tr : list event) (good : list string)
  (bad : string) (rest : list string) (tb : list event) (o : outcome Process) :
  getData os t = (tr, Returned (good ++ bad :: rest)) ->
  Forall (fun line => exists p, netstat_line line = ([], Returned p)) good ->
  netstat_line bad = (tb, o) ->
  abnormal o = true ->
  netstat os t
  = (tr ++ tb, match o with Exited n => Exited n | _ => Panicked end).
Proof.
  intros Hg HF Hb Ho. unfold netstat.
  assert (forall acc, netstat_loop (good ++ bad :: rest) acc
                      = (tb, match o with Exited n => Exited n | _ => Panicked end))
    as Hloop.
  { clear Hg. induction HF as [|line good [p Hp] _ IH]; intros acc.
    - simpl. rewrite Hb. destruct o; [discriminate Ho | reflexivity | reflexivity].
    - simpl. rewrite (bind_returned _ _ _ _ _ _ Hp (IH (acc ++ [p]))).
      reflexivity. }
  rewrite (bind_returned _ _ _ _ _ _ Hg (Hloop [])). reflexivity.
Qed.

Lemma netstat_first_failure_witness :
  netstat (table_os (table [sample_header; sample_line "0A";
                            "1: 0100007F:zz 00000000:0000 0A"; "not reached"]))
          "tcp"
  = ([ReadFile PROC_TCP; Println (ErrSyntax "ParseInt" "zz")], Exited 1).
Proof.
  refine (netstat_first_failure
            (table_os (table [sample_header; sample_line "0A";
                              "1: 0100007F:zz 00000000:0000 0A"; "not reached"]))
            "tcp" [ReadFile PROC_TCP] [sample_line "0A"]
            "1: 0100007F:zz 00000000:0000 0A" ["not reached"]
            [Println (ErrSyntax "ParseInt" "zz")] (Exited 1)
            eq_refl _ eq_refl eq_refl).
  apply Forall_cons_2; [|apply Forall_nil_2]. eexists. vm_compute. reflexivity.
Defined.

(** X13.  The ports of every returned record are within the range of a
    signed integer of 32 bits; the port tokens are parsed as such, sign
    included, so a port may be negative or exceed 65535. *)
Theorem netstat_ports_int32
  (os : OS) (t : string) (tr : list event) (ps : list Process) :
  netstat os t = (tr, Returned ps) ->
  Forall (fun p => int32 (Port p) = true /\ int32 (ForeignPort p) = true) ps.
Proof.
  intros H. unfold netstat in H. bind_inversion H.
  apply netstat_loop_inv in H as (_ & ps' & -> & HF). rewrite app_nil_l.
  clear -HF. induction HF as [|line p lines ps Hl _ IH]; constructor; [|exact IH].
  apply netstat_line_inv in Hl as (_ & Hp & _).
  destruct Hp as (f1 & f2 & a0 & a1 & b0 & b1 & Hp).
  destruct Hp as (_ & _ & _ & _ & _ & _ & _ & H1 & _ & H2 & _).
  apply hexToDec_inv in H1 as (_ & _ & H1).
  apply hexToDec_inv in H2 as (_ & _ & H2). auto.
Qed.

Lemma netstat_ports_int32_witness :
  Forall (fun p => int32 (Port p) = true /\ int32 (ForeignPort p) = true)
         [ {| User := ""; Name := ""; Pid := ""; Exe := "";
              State := "0A"; IP := "127.0.0.1"; Port := 74565;
              ForeignIP := "0.0.0.0"; ForeignPort := -1 |} ].
Proof.
  refine (netstat_ports_int32
            (table_os (table [sample_header;
                              "0: 0100007F:12345 00000000:-1 0A"]))
            "tcp" [ReadFile PROC_TCP] _ _).
  vm_compute. reflexivity.
Defined.

(** ** More on the inode resolver *)

Lemma last_filter_all (P : string -> bool) (Q : string -> Prop) (d : list string) :
  Forall (fun item => P item = true -> Q item) d ->
  match last (List.filter P d) with
  | Some item => Q item
  | None => Forall (fun item => P item = false) d
  end.
Proof.
  induction 1 as [|item d Hi _ IH]; simpl; [constructor|].
  destruct (P item) eqn:Hp.
  - rewrite last_cons. destruct (last (List.filter P d)); [exact IH | auto].
  - destruct (last (List.filter P d)); [exact IH | constructor; assumption].
Qed.

(** X14.  When every link whose target contains the inode belongs to one
    process, and there is such a link, the resolver returns the id of that
    process, however many descriptors of it match and wherever they stand in
    the enumeration. *)
Theorem findPid_single_owner
  (os : OS) (compile : string -> option Regexp) (inode : string)
  (re : Regexp) (d : list string) (owner : string) :
  filepath_Glob os fd_pattern = inl d ->
  compile inode = Some re ->
  (forall target,
      negb (String.length (FindString re target) =? 0)%nat
      = contains inode target) ->
  Forall (fun item => is_Some (Split item "/" !! 2%nat)) d ->
  Forall (fun item => link_matches os inode item = true ->
                      pid_of_link item = owner) d ->
  Exists (fun item => link_matches os inode item = true) d ->
  findPid os compile inode = (Glob fd_pattern :: map Readlink d, Returned owner).
Proof.
  intros Hg Hc Hre HF Hown Hex. unfold findPid. rewrite bind_emit.
  change "/proc/[0-9]*/fd/[0-9]*" with fd_pattern. rewrite Hg, Hc.
  rewrite (findPid_loop_last os inode re d "-" Hre HF).
  pose proof (last_filter_all _ _ d Hown) as Hl.
  destruct (last (List.filter (link_matches os inode) d)) as [item|].
  - rewrite Hl. reflexivity.
  - exfalso. apply Exists_exists in Hex as (item & Hin & Hm).
    rewrite Forall_forall in Hl. rewrite (Hl item Hin) in Hm. discriminate Hm.
Qed.

Lemma findPid_single_owner_witness :
  findPid owner_os literal_MustCompile "1234"
  = (Glob fd_pattern :: map Readlink sample_links, Returned "10").
Proof.
  refine (findPid_single_owner owner_os literal_MustCompile "1234"
            (literal_regexp "1234") sample_links "10" eq_refl eq_refl _ _ _ _).
  - intros target. simpl. destruct (contains "1234" target); reflexivity.
  - unfold sample_links. repeat apply Forall_cons_2; try apply Forall_nil_2;
      vm_compute; eexists; reflexivity.
  - unfold sample_links. repeat apply Forall_cons_2; try apply Forall_nil_2;
      vm_compute; intros H; first [reflexivity | discriminate H].
  - apply Exists_cons_hd. reflexivity.
Defined.

(** ** The process name *)

Lemma Split_last (s : string) (sep : ascii) :
  exists piece, last (Split s sep) = Some piece /\ has_byte sep piece = false.
Proof.
  pose proof (Split_pieces s sep) as HF. pose proof (Split_length s sep) as [Hl _].
  destruct (last (Split s sep)) as [piece|] eqn:E.
  - exists piece. split; [reflexivity|].
    rewrite Forall_forall in HF. apply HF.
    rewrite last_lookup in E. eapply list_elem_of_lookup_2. exact E.
  - apply last_None in E. rewrite E in Hl. simpl in Hl. lia.
Qed.

Lemma Split_last_component (dir base : string) (sep : ascii) :
  has_byte sep base = false ->
  last (Split (dir +:+ String sep base) sep) = Some base.
Proof.
  intros Hb. induction dir as [|c dir IH].
  - simpl. rewrite Ascii.eqb_refl, (Split_no_sep base sep Hb). reflexivity.
  - rewrite append_cons. simpl Split.
    assert (has_byte sep (dir +:+ String sep base) = true) as Hs.
    { rewrite has_byte_append. simpl. rewrite Ascii.eqb_refl, orb_true_r.
      reflexivity. }
    pose proof (Split_length (dir +:+ String sep base) sep) as [_ H2].
    specialize (H2 Hs).
    destruct (Split (dir +:+ String sep base) sep) as [|h [|h' t]];
      simpl in H2; try lia.
    destruct (Ascii.eqb c sep); rewrite !last_cons_cons in *; exact IH.
Qed.

Lemma getProcessName_last (Title : string -> string) (exe name : string) :
  last (Split exe "/") = Some name ->
  getProcessName Title exe = ([], Returned (Title name)).
Proof.
  intros Hl. unfold getProcessName, index_int.
  pose proof (Split_length exe "/") as [H1 _].
  destruct (Z.leb_spec 0 (Z.of_nat (length (Split exe "/")) - 1)); [|lia].
  destruct (Z.ltb_spec (Z.of_nat (length (Split exe "/")) - 1)
                       (Z.of_nat (length (Split exe "/")))); [|lia].
  simpl andb. cbv iota.
  replace (Z.to_nat (Z.of_nat (length (Split exe "/")) - 1))
    with (pred (length (Split exe "/"))) by lia.
  rewrite last_lookup in Hl. rewrite (index_Some _ _ _ Hl), bind_ret_l.
  reflexivity.
Qed.

(** X15.  [getProcessName] never panics, not even on the empty path: on
    every path it returns the title form of the text after the last slash
    (of the whole path when it has no slash, of the empty string when the
    path ends in a slash), and what stands before the last slash does not
    matter. *)
Theorem getProcessName_base (Title : string -> string) (dir base : string) :
  has_byte "/" base = false ->
  getProcessName Title (dir +:+ "/" +:+ base) = ([], Returned (Title base))
  /\ getProcessName Title base = ([], Returned (Title base))
  /\ forall exe, exists name,
       has_byte "/" name = false
       /\ getProcessName Title exe = ([], Returned (Title name)).
Proof.
  intros Hb. split; [|split].
  - apply getProcessName_last. change ("/" +:+ base) with (String "/" base).
    apply Split_last_component. exact Hb.
  - apply getProcessName_last. rewrite (Split_no_sep base "/" Hb). reflexivity.
  - intros exe. destruct (Split_last exe "/") as (name & Hl & Hn).
    exists name. split; [exact Hn|]. apply getProcessName_last. exact Hl.
Qed.

Lemma getProcessName_base_witness :
  getProcessName title_word "/usr/sbin/sshd" = ([], Returned "Sshd")
  /\ getProcessName title_word "sshd" = ([], Returned "Sshd").
Proof.
  pose proof (getProcessName_base title_word "/usr/sbin" "sshd" eq_refl)
    as (H1 & H2 & _).
  split; [exact H1 | exact H2].
Defined.

(** ** The state table *)

Lemma STATE_entries (code name : string) :
  STATE !! code = Some name ->
  (code, name) ∈ [ ("01", "ESTABLISHED"); ("02", "SYN_SENT"); ("03", "SYN_RECV");
                   ("04", "FIN_WAIT1"); ("05", "FIN_WAIT2"); ("06", "TIME_WAIT");
                   ("07", "CLOSE"); ("08", "CLOSE_WAIT"); ("09", "LAST_ACK");
                   ("0A", "LISTEN"); ("0B", "CLOSING") ].
Proof. intros H. apply elem_of_list_to_map_2 in H. exact H. Qed.

(** X16.  The state table holds exactly the codes 1 to 11, each written as
    two upper-case hexadecimal digits: a code has a name if and only if it
    is one of these (so "0a" has none), and no two codes share a name. *)
Theorem STATE_codes :
  (forall code, is_Some (STATE !! code) <-> exists n, 1 <= n <= 11 /\ code = hex2 n)
  /\ (forall code code' name,
         STATE !! code = Some name -> STATE !! code' = Some name -> code = code')
  /\ STATE !! "0a" = None.
Proof.
  split; [|split].
  - intros code. split.
    + intros [name H]. apply STATE_entries in H.
      repeat (apply elem_of_cons in H as [H|H];
              [injection H as -> ->;
               first [ exists 1; split; [lia | reflexivity]
                     | exists 2; split; [lia | reflexivity]
                     | exists 3; split; [lia | reflexivity]
                     | exists 4; split; [lia | reflexivity]
                     | exists 5; split; [lia | reflexivity]
                     | exists 6; split; [lia | reflexivity]
                     | exists 7; split; [lia | reflexivity]
                     | exists 8; split; [lia | reflexivity]
                     | exists 9; split; [lia | reflexivity]
                     | exists 10; split; [lia | reflexivity]
                     | exists 11; split; [lia | reflexivity] ]|]).
      apply elem_of_nil in H. destruct H.
    + intros (n & Hn & ->).
      assert (n = 1 \/ n = 2 \/ n = 3 \/ n = 4 \/ n = 5 \/ n = 6 \/ n = 7
              \/ n = 8 \/ n = 9 \/ n = 10 \/ n = 11) as Hd by lia.
      repeat (destruct Hd as [->|Hd]; [eexists; vm_compute; reflexivity|]).
      subst n. eexists. vm_compute. reflexivity.
  - intros code code' name H H'.
    apply STATE_entries in H. apply STATE_entries in H'.
    repeat (apply elem_of_cons in H as [H|H]; [injection H as -> ->|]);
      try (apply elem_of_nil in H; destruct H);
      repeat (apply elem_of_cons in H' as [H'|H'];
              [first [discriminate H' | injection H' as ->; reflexivity]|]);
      apply elem_of_nil in H'; destruct H'.
  - vm_compute. reflexivity.
Qed.

(** ** Tokens and column alignment *)

Lemma list_ascii_of_string_append (a b : string) :
  list_ascii_of_string (a +:+ b)
  = list_ascii_of_string a ++ list_ascii_of_string b.
Proof.
  induction a as [|c a IH]; [reflexivity|].
  rewrite append_cons. simpl. rewrite IH. reflexivity.
Qed.

Lemma list_ascii_of_spaces (n : nat) :
  list_ascii_of_string (spaces n) = replicate n " "%char.
Proof. induction n as [|n IH]; simpl; [reflexivity | rewrite IH; reflexivity]. Qed.

Lemma rev_replicate {A : Type} (n : nat) (x : A) :
  rev (replicate n x) = replicate n x.
Proof.
  induction n as [|n IH]; [reflexivity|].
  simpl. rewrite IH. symmetry. apply replicate_cons_app.
Qed.

Lemma TrimLeft_spaces (n : nat) (l : list ascii) :
  TrimLeft (replicate n " "%char ++ l) = TrimLeft l.
Proof. induction n as [|n IH]; [reflexivity | exact IH]. Qed.

Lemma TrimLeft_rev_spaces (n : nat) (l : list ascii) :
  TrimLeft_rev (replicate n " "%char ++ l) = TrimLeft_rev l.
Proof. induction n as [|n IH]; [reflexivity | exact IH]. Qed.

Lemma visible_not_space (v : Z) :
  33 <= v <= 126 ->
  space1 v = false
  /\ (forall b, space2 v b = false) /\ (forall b, space2 b v = false)
  /\ (forall b c, space3 v b c = false) /\ (forall b c, space3 c b v = false).
Proof.
  intros Hv. unfold space1, space2, space3.
  repeat match goal with
         | |- context [v =? ?k] =>
             destruct (Z.eqb_spec v k); [lia|]
         | |- context [?k <=? v] =>
             destruct (Z.leb_spec k v); [lia|]
         end.
  repeat split; intros; simpl; rewrite ?andb_false_r, ?orb_false_r; reflexivity.
Qed.

Lemma TrimLeft_visible (a : ascii) (l : list ascii) :
  33 <= byte_val a <= 126 -> TrimLeft (a :: l) = a :: l.
Proof.
  intros Hv. destruct (visible_not_space _ Hv) as (H1 & H2 & _ & H3 & _).
  simpl. rewrite H1. destruct l as [|b [|c l]]; rewrite ?H2, ?H3; reflexivity.
Qed.

Lemma TrimLeft_rev_visible (a : ascii) (l : list ascii) :
  33 <= byte_val a <= 126 -> TrimLeft_rev (a :: l) = a :: l.
Proof.
  intros Hv. destruct (visible_not_space _ Hv) as (H1 & _ & H2 & _ & H3).
  simpl. rewrite H1. destruct l as [|b [|c l]]; rewrite ?H2, ?H3; reflexivity.
Qed.

Lemma visible_token_inv (tok : string) :
  visible_token tok = true ->
  tok <> "" /\ all_visible tok = true /\ has_byte " " tok = false.
Proof.
  unfold visible_token. intros H. apply andb_prop in H as [Hne Hv].
  split; [intros ->; discriminate Hne|]. split; [exact Hv|].
  clear Hne. induction tok as [|c tok IH]; [reflexivity|].
  simpl in *. apply andb_prop in Hv as [Hc Hv]. apply andb_prop in Hc as [H1 H2].
  rewrite (IH Hv), orb_false_r.
  apply Z.leb_le in H1. apply Z.leb_le in H2.
  destruct (Ascii.eqb_spec c " ") as [->|]; [|reflexivity].
  vm_compute in H1. exfalso. apply H1. reflexivity.
Qed.

Lemma visible_first (tok rest : string) :
  visible_token tok = true ->
  exists a l, list_ascii_of_string (tok +:+ rest) = a :: l
              /\ 33 <= byte_val a <= 126.
Proof.
  intros H. apply visible_token_inv in H as (Hne & Hv & _).
  destruct tok as [|c tok]; [congruence|]. simpl in Hv.
  apply andb_prop in Hv as [Hc _]. apply andb_prop in Hc as [H1 H2].
  apply Z.leb_le in H1. apply Z.leb_le in H2.
  rewrite append_cons. simpl. eauto.
Qed.

Lemma visible_last (tok : string) :
  visible_token tok = true ->
  exists z l, rev (list_ascii_of_string tok) = z :: l
              /\ 33 <= byte_val z <= 126.
Proof.
  intros H. apply visible_token_inv in H as (Hne & Hv & _).
  induction tok as [|c tok IH]; [congruence|]. simpl in Hv.
  apply andb_prop in Hv as [Hc Hv]. apply andb_prop in Hc as [H1 H2].
  apply Z.leb_le in H1. apply Z.leb_le in H2. simpl.
  destruct tok as [|c' tok'].
  - simpl. eauto.
  - destruct (IH ltac:(discriminate) Hv) as (z & l & E & Hz).
    rewrite E. simpl. eauto.
Qed.

Lemma spaced_last (tok : string) (toks : list (nat * string)) :
  visible_token tok = true ->
  Forall (fun nt => visible_token (snd nt) = true) toks ->
  exists z l, rev (list_ascii_of_string (tok +:+ spaced toks)) = z :: l
              /\ 33 <= byte_val z <= 126.
Proof.
  intros Ht HF. revert tok Ht. induction HF as [|[n tok'] toks Hv _ IH]; intros tok Ht.
  - simpl spaced. rewrite append_nil_r. apply visible_last. exact Ht.
  - simpl spaced. rewrite !list_ascii_of_string_append, !rev_app_distr.
    rewrite <- rev_app_distr, <- list_ascii_of_string_append.
    destruct (IH tok' Hv) as (z & l & E & Hz). rewrite E. simpl. eauto.
Qed.

(** [strings.TrimSpace] takes the spaces around a text that begins and
    ends with a visible character, and nothing else. *)
Lemma TrimSpace_spaces (n0 nk : nat) (body : string) (a z : ascii) (l m : list ascii) :
  list_ascii_of_string body = a :: l -> 33 <= byte_val a <= 126 ->
  rev (list_ascii_of_string body) = z :: m -> 33 <= byte_val z <= 126 ->
  TrimSpace (spaces n0 +:+ body +:+ spaces nk) = body.
Proof.
  intros Ha Hva Hz Hvz. unfold TrimSpace, TrimRight.
  rewrite !list_ascii_of_string_append, !list_ascii_of_spaces.
  rewrite TrimLeft_spaces, Ha. simpl app. rewrite (TrimLeft_visible a _ Hva).
  change (a :: l ++ replicate nk " "%char) with ((a :: l) ++ replicate nk " "%char).
  rewrite <- Ha, rev_app_distr, rev_replicate, TrimLeft_rev_spaces, Hz.
  rewrite (TrimLeft_rev_visible z _ Hvz), <- Hz, rev_involutive.
  apply string_of_list_ascii_of_string.
Qed.

Lemma removeEmpty_Split_spaces (n : nat) (r : string) :
  removeEmpty (Split (spaces n +:+ r) " ") = removeEmpty (Split r " ").
Proof. induction n as [|n IH]; [reflexivity | exact IH]. Qed.

Lemma removeEmpty_Split_spaced (tok : string) (toks : list (nat * string)) :
  visible_token tok = true ->
  Forall (fun nt => visible_token (snd nt) = true) toks ->
  removeEmpty (Split (tok +:+ spaced toks) " ") = tok :: map snd toks.
Proof.
  intros Ht HF. revert tok Ht. induction HF as [|[n tok'] toks Hv _ IH]; intros tok Ht.
  - apply visible_token_inv in Ht as (Hne & _ & Hs).
    simpl spaced. rewrite append_nil_r, (Split_no_sep tok " " Hs). simpl.
    destruct (String.eqb_spec tok ""); [congruence | reflexivity].
  - pose proof (visible_token_inv tok Ht) as (Hne & _ & Hs).
    simpl spaced. rewrite append_cons, (Split_app_sep tok _ " " Hs).
    simpl removeEmpty. destruct (String.eqb_spec tok ""); [congruence|].
    rewrite removeEmpty_Split_spaces, (IH tok' Hv). reflexivity.
Qed.

(** X17.  Column alignment does not matter: a line made of tokens of visible
    ASCII characters, with any number of spaces before the first token, one
    space or more between two tokens and any number of spaces after the
    last, yields exactly these tokens, in order. *)
Theorem lineArray_of_spaced
  (n0 nk : nat) (tok : string) (toks : list (nat * string)) :
  visible_token tok = true ->
  Forall (fun nt => visible_token (snd nt) = true) toks ->
  lineArray_of (spaces n0 +:+ (tok +:+ spaced toks) +:+ spaces nk)
  = tok :: map snd toks.
Proof.
  intros Ht HF. unfold lineArray_of.
  destruct (visible_first tok (spaced toks) Ht) as (a & l & Ha & Hva).
  destruct (spaced_last tok toks Ht HF) as (z & m & Hz & Hvz).
  rewrite (TrimSpace_spaces n0 nk _ a z l m Ha Hva Hz Hvz).
  apply removeEmpty_Split_spaced; assumption.
Qed.

Lemma lineArray_of_spaced_witness :
  lineArray_of "   0: 0100007F:0050  00000000:0000 0A    "
  = ["0:"; "0100007F:0050"; "00000000:0000"; "0A"].
Proof.
  refine (lineArray_of_spaced 3 4 "0:"
            [(0%nat, "0100007F:0050"); (1%nat, "00000000:0000"); (0%nat, "0A")]
            eq_refl _).
  repeat (apply Forall_cons_2; [reflexivity|]). apply Forall_nil_2.
Defined.

(** ** The state token *)

Lemma bind_silent {A B : Type} (m : M A) (k : A -> M B) (a : A) :
  m = ([], Returned a) -> bind m k = k a.
Proof. intros ->. apply (bind_ret_l a k). Qed.

(** A record that carries what a line holds, and no owner, is the record
    that the line is decoded to. *)
Lemma netstat_line_populated (line : string) (p : Process) :
  populated line p -> unowned p -> netstat_line line = ([], Returned p).
Proof.
  intros (f1 & f2 & a0 & a1 & b0 & b1 & H1 & Ha0 & Ha1 & H2 & Hb0 & Hb1
          & Cip & Cport & Cfip & Cfport & H3) (Hu & Hn & Hp & He).
  unfold netstat_line.
  rewrite (index_Some _ _ _ H1), bind_ret_l.
  rewrite (index_Some _ _ _ Ha0), bind_ret_l.
  rewrite (bind_silent _ _ _ Cip).
  rewrite (index_Some _ _ _ Ha1), bind_ret_l.
  rewrite (bind_silent _ _ _ Cport).
  rewrite (index_Some _ _ _ H2), bind_ret_l.
  rewrite (index_Some _ _ _ Hb0), bind_ret_l.
  rewrite (bind_silent _ _ _ Cfip).
  rewrite (index_Some _ _ _ Hb1), bind_ret_l.
  rewrite (bind_silent _ _ _ Cfport).
  rewrite (index_Some _ _ _ H3), bind_ret_l.
  destruct p; simpl in *; subst; reflexivity.
Qed.

(** The state token has no part in the decoding: a line that is decoded
    stays decoded, to the same addresses and ports, when its state token is
    replaced by any other token. *)
Lemma netstat_line_any_state
  (line line' st' : string) (t : list event) (p : Process) :
  lineArray_of line' !! 1%nat = lineArray_of line !! 1%nat ->
  lineArray_of line' !! 2%nat = lineArray_of line !! 2%nat ->
  lineArray_of line' !! 3%nat = Some st' ->
  netstat_line line = (t, Returned p) ->
  netstat_line line'
  = ([], Returned {| User := ""; Name := ""; Pid := ""; Exe := "";
                     State := st'; IP := IP p; Port := Port p;
                     ForeignIP := ForeignIP p; ForeignPort := ForeignPort p |}).
Proof.
  intros E1 E2 E3 H. apply netstat_line_inv in H as (_ & Hp & _).
  destruct Hp as (f1 & f2 & a0 & a1 & b0 & b1 & H1 & Ha0 & Ha1 & H2 & Hb0 & Hb1
                  & Cip & Cport & Cfip & Cfport & _).
  apply netstat_line_populated; [|repeat split].
  exists f1, f2, a0, a1, b0, b1. rewrite E1, E2. simpl.
  repeat (split; [assumption|]). exact E3.
Qed.

Lemma STATE_absent (code : string) :
  (forall n, 1 <= n <= 11 -> code <> hex2 n) -> STATE !! code = None.
Proof.
  intros Hn. destruct (STATE !! code) as [name|] eqn:E; [|reflexivity].
  exfalso. apply STATE_entries in E.
  repeat (apply elem_of_cons in E as [E|E];
          [injection E as -> ->;
           first [ apply (Hn 1); [lia | reflexivity]
                 | apply (Hn 2); [lia | reflexivity]
                 | apply (Hn 3); [lia | reflexivity]
                 | apply (Hn 4); [lia | reflexivity]
                 | apply (Hn 5); [lia | reflexivity]
                 | apply (Hn 6); [lia | reflexivity]
                 | apply (Hn 7); [lia | reflexivity]
                 | apply (Hn 8); [lia | reflexivity]
                 | apply (Hn 9); [lia | reflexivity]
                 | apply (Hn 10); [lia | reflexivity]
                 | apply (Hn 11); [lia | reflexivity] ]|]).
  apply elem_of_nil in E. exact E.
Qed.

(** C1 (amended).  The state field of every returned record is the fourth
    token of its line, unchanged: the parser does not consult the state
    table.  So no state token, listed or not, makes a line fail: a line of
    either family (address tokens of 8 or of 32 hexadecimal digits) is
    decoded whatever its state token is, and any line that is decoded stays
    decoded, to the same addresses and ports, when its state token is
    replaced by any other token; the record then carries that token, and no
    "unknown" is produced.  The table itself maps "0A" to "LISTEN", and
    reading a code it does not hold (any code that is not 01 to 0B) yields
    the empty string. *)
Theorem C1_state_is_fourth_token
  (os : OS) (t : string) (tr : list event) (ps : list Process) :
  netstat os t = (tr, Returned ps) ->
  (exists data,
      getData os t = (tr, Returned data)
      /\ Forall2 (fun line p => lineArray_of line !! 3%nat = Some (State p))
                 data ps)
  /\ (forall line st, socket_line line st ->
        exists p, netstat_line line = ([], Returned p) /\ State p = st)
  /\ (forall line line' st' t' p,
        lineArray_of line' !! 1%nat = lineArray_of line !! 1%nat ->
        lineArray_of line' !! 2%nat = lineArray_of line !! 2%nat ->
        lineArray_of line' !! 3%nat = Some st' ->
        netstat_line line = (t', Returned p) ->
        netstat_line line'
        = ([], Returned {| User := ""; Name := ""; Pid := ""; Exe := "";
                           State := st'; IP := IP p; Port := Port p;
                           ForeignIP := ForeignIP p;
                           ForeignPort := ForeignPort p |}))
  /\ STATE_get SOCKET_STATE_LISTEN = "LISTEN"
  /\ (forall code, STATE !! code = None -> STATE_get code = "")
  /\ (forall code, (forall n, 1 <= n <= 11 -> code <> hex2 n) ->
        STATE_get code = "").
Proof.
  intros H. unfold netstat in H. bind_inversion H. subst tr.
  apply netstat_loop_inv in H as (-> & ps' & -> & HF).
  rewrite app_nil_r. split; [|split; [|split; [|split; [|split]]]].
  - exists x. split; [exact H0|]. simpl.
    eapply Forall2_impl; [exact HF|]. intros line p Hl.
    apply netstat_line_inv in Hl as (_ & Hp & _).
    destruct Hp as (f1 & f2 & a0 & a1 & b0 & b1 & Hp).
    destruct Hp as (_ & _ & _ & _ & _ & _ & _ & _ & _ & _ & H3). exact H3.
  - intros line st Hl.
    destruct (netstat_line_socket line st Hl) as (p & Hp & Hs & _).
    exists p. split; assumption.
  - intros line line' st' t' p. apply netstat_line_any_state.
  - vm_compute. reflexivity.
  - intros code Hc. unfold STATE_get. rewrite Hc. reflexivity.
  - intros code Hc. unfold STATE_get. rewrite (STATE_absent code Hc). reflexivity.
Qed.

Lemma C1_state_is_fourth_token_witness :
  exists data,
    getData (table_os (table [sample_header; sample_line "0A"])) "tcp"
    = ([ReadFile PROC_TCP], Returned data)
    /\ Forall2 (fun line p => lineArray_of line !! 3%nat = Some (State p))
               data
               [ {| User := ""; Name := ""; Pid := ""; Exe := "";
                    State := "0A"; IP := "127.0.0.1"; Port := 80;
                    ForeignIP := "0.0.0.0"; ForeignPort := 0 |} ].
Proof.
  exact (proj1 (C1_state_is_fourth_token
                  (table_os (table [sample_header; sample_line "0A"])) "tcp"
                  [ReadFile PROC_TCP] _ eq_refl)).
Defined.
